(** * maubot-autoreply: away state and missed-message tracking

    A shallow embedding of [autoreply/_store.py] (the database schema and
    the [AutoReplyBotStore] methods) and of [autoreply/__init__.py] (the
    message handlers of [AutoReplyBot]), followed by the properties of the
    away-state policy, the management commands and the summary.

    Modelling choices:
    - a table is the list of its rows in insertion order; a PRIMARY KEY is
      the column an INSERT checks before it adds a row; a SELECT returns
      its rows in table order (the statements have no ORDER BY, so the
      order of a returned list belongs to the model, not to the database);
    - the database answers every statement (no connection failure); the
      only exception a statement raises is the refusal of an INSERT;
    - [evt.reply] is recorded in the list of sent replies and succeeds;
    - [client.get_account_data] and [client.create_room] either return
      or raise;
    - an event is a message with a text body ([evt.content.body] is a
      string); a message without body, on which the [startswith] of the
      management commands would raise, is outside the model;
    - a handler runs to its end before the next event is handled. *)

From Stdlib Require Import String Ascii List Bool Arith Lia Permutation.
Import ListNotations.
Open Scope string_scope.
Open Scope list_scope.

Set Implicit Arguments.

(** String concatenation ([+], [+=] and f-strings in the source). *)
Infix "^^" := String.append (at level 60, right associativity).

(** ** Exceptions and the effect monad

    Every handler is an [async def] that reads and writes the database,
    sends replies and may raise.  A statement that has run before an
    exception keeps its effect (each [execute] commits on its own), so
    a computation returns the new world together with either an exception
    or a value. *)

Inductive Exception : Type :=
| IntegrityError      (* a PRIMARY KEY constraint refused an INSERT *)
| MatrixRequestError. (* the homeserver request of the client failed *)

Module Sql.
Section Table.
Variable Row : Type.
(** The column declared PRIMARY KEY. *)
Variable pk : Row -> string.

(** [SELECT ... WHERE p]: the rows that satisfy [p], in table order. *)
Definition fetch (p : Row -> bool) (t : list Row) : list Row := filter p t.

(** [fetchval]: the selected column of the first row, [None] without row. *)
Definition fetchval {A : Type} (col : Row -> A) (p : Row -> bool)
    (t : list Row) : option A :=
  match fetch p t with
  | [] => None
  | r :: _ => Some (col r)
  end.

Definition has_key (k : string) (t : list Row) : bool :=
  existsb (fun r => String.eqb (pk r) k) t.

(** [INSERT INTO t VALUES (...)]: refused when the key is taken. *)
Definition insert (r : Row) (t : list Row) : Exception + list Row :=
  if has_key (pk r) t then inl IntegrityError else inr (t ++ [r]).

(** [INSERT ... ON CONFLICT(pk) DO UPDATE SET ...]: the row in conflict
    is rewritten by [upd]; without conflict the row is added. *)
Definition upsert (upd : Row -> Row) (r : Row) (t : list Row) : list Row :=
  if has_key (pk r) t
  then map (fun old => if String.eqb (pk old) (pk r) then upd old else old) t
  else t ++ [r].

(** [DELETE FROM t WHERE p]. *)
Definition delete (p : Row -> bool) (t : list Row) : list Row :=
  filter (fun r => negb (p r)) t.

(** The PRIMARY KEY constraint on a table. *)
Definition pk_ok (t : list Row) : Prop := NoDup (map pk t).

Definition count (p : Row -> bool) (t : list Row) : nat :=
  length (filter p t).
End Table.
End Sql.

(** ** The schema ([schema_v1]) *)

Record management_row : Type := MkManagementRow {
  mr_user_id : string;   (* TEXT PRIMARY KEY *)
  mr_room_id : string    (* TEXT NOT NULL *)
}.

Record message_row : Type := MkMessageRow {
  msg_room_id : string;  (* TEXT PRIMARY KEY *)
  msg_event_id : string; (* TEXT NOT NULL *)
  msg_user_id : string   (* TEXT NOT NULL *)
}.

Record away_row : Type := MkAwayRow {
  aw_user_id : string;   (* TEXT PRIMARY KEY *)
  aw_is_away : bool      (* BOOLEAN NOT NULL *)
}.

Record Database : Type := MkDatabase {
  autoreply_management_rooms : list management_row;
  autoreply_messages : list message_row;
  autoreply_user_away : list away_row
}.

(** The database right after [schema_v1] has run. *)
Definition schema_v1 : Database := MkDatabase [] [] [].

(** The three PRIMARY KEY constraints of the schema. *)
Definition constraints (db : Database) : Prop :=
  Sql.pk_ok mr_user_id (autoreply_management_rooms db) /\
  Sql.pk_ok msg_room_id (autoreply_messages db) /\
  Sql.pk_ok aw_user_id (autoreply_user_away db).

(** ** Events, replies and the world *)

Record MessageEvent : Type := MkMessageEvent {
  sender : string;
  room_id : string;
  event_id : string;
  body : string
}.

(** A call of [evt.reply]: the room and event replied to, the content and
    the [markdown] keyword as the call passes it ([None]: not passed). *)
Record Reply : Type := MkReply {
  target_room_id : string;
  in_reply_to_event_id : string;
  reply_content : string;
  reply_markdown : option bool
}.

Record World : Type := MkWorld {
  database : Database;
  sent : list Reply          (* replies sent so far, oldest first *)
}.

Definition M (A : Type) : Type := World -> World * (Exception + A).

Definition ret {A} (a : A) : M A := fun w => (w, inr a).

Definition raise {A} (e : Exception) : M A := fun w => (w, inl e).

Definition bind {A B} (m : M A) (k : A -> M B) : M B :=
  fun w =>
    match m w with
    | (w', inl e) => (w', inl e)
    | (w', inr a) => k a w'
    end.

Notation "x <- m ;; k" := (bind m (fun x => k))
  (at level 61, m at next level, right associativity).
Notation "m ;;; k" := (bind m (fun _ => k))
  (at level 61, right associativity).

(** Python's [a and b] over awaited operands: [b] is not awaited when [a]
    is false. *)
Definition and_then (a b : M bool) : M bool :=
  x <- a ;; if x then b else ret false.

(** [if c: body] with nothing after the test fails. *)
Definition when (c : bool) (m : M unit) : M unit :=
  if c then m else ret tt.

Definition get_db {A} (f : Database -> A) : M A :=
  fun w => (w, inr (f (database w))).

Definition set_db (db : Database) : M unit :=
  fun w => (MkWorld db (sent w), inr tt).

(** [evt.reply(content, markdown=...)]. *)
Definition reply (evt : MessageEvent) (content : string)
    (markdown : option bool) : M unit :=
  fun w =>
    (MkWorld (database w)
       (sent w ++ [MkReply (room_id evt) (event_id evt) content markdown]),
     inr tt).

(** ** [AutoReplyBotStore] ([_store.py])

    [user_id] is the identifier given to [__init__]; every method binds it
    as a statement parameter. *)

Module AutoReplyBotStore.
Section Store.
Variable user_id : string.

Definition with_messages (db : Database) (t : list message_row) : Database :=
  MkDatabase (autoreply_management_rooms db) t (autoreply_user_away db).

Definition with_user_away (db : Database) (t : list away_row) : Database :=
  MkDatabase (autoreply_management_rooms db) (autoreply_messages db) t.

Definition with_management_rooms (db : Database)
    (t : list management_row) : Database :=
  MkDatabase t (autoreply_messages db) (autoreply_user_away db).

(** SELECT room_id FROM autoreply_management_rooms WHERE user_id = $1 *)
Definition get_management_room : M (option string) :=
  get_db (fun db =>
    Sql.fetchval mr_room_id (fun r => String.eqb (mr_user_id r) user_id)
      (autoreply_management_rooms db)).

(** INSERT INTO autoreply_management_rooms(user_id, room_id) VALUES($1, $2) *)
Definition store_management_room (room : string) : M unit :=
  db <- get_db (fun db => db) ;;
  match Sql.insert mr_user_id (MkManagementRow user_id room)
          (autoreply_management_rooms db) with
  | inl e => raise e
  | inr t => set_db (with_management_rooms db t)
  end.

(** SELECT event_id FROM autoreply_messages
    WHERE room_id = $1 AND user_id = $2 *)
Definition get_message_id_in_room (room : string) : M (option string) :=
  get_db (fun db =>
    Sql.fetchval msg_event_id
      (fun r => String.eqb (msg_room_id r) room
                && String.eqb (msg_user_id r) user_id)
      (autoreply_messages db)).

(** INSERT INTO autoreply_messages(event_id, room_id, user_id)
    VALUES($1, $2, $3) *)
Definition store_message (event room : string) : M unit :=
  db <- get_db (fun db => db) ;;
  match Sql.insert msg_room_id (MkMessageRow room event user_id)
          (autoreply_messages db) with
  | inl e => raise e
  | inr t => set_db (with_messages db t)
  end.

(** DELETE FROM autoreply_messages WHERE user_id = $1 *)
Definition clear_messages : M unit :=
  db <- get_db (fun db => db) ;;
  set_db (with_messages db
    (Sql.delete (fun r => String.eqb (msg_user_id r) user_id)
       (autoreply_messages db))).

(** SELECT room_id, event_id FROM autoreply_messages WHERE user_id = $1,
    then one [(room_id, event_id)] tuple per row. *)
Definition get_missed_messages : M (list (string * string)) :=
  get_db (fun db =>
    map (fun row => (msg_room_id row, msg_event_id row))
      (Sql.fetch (fun r => String.eqb (msg_user_id r) user_id)
         (autoreply_messages db))).

(** INSERT INTO autoreply_user_away(user_id, is_away) VALUES($1, $2)
    ON CONFLICT(user_id) DO UPDATE SET is_away = EXCLUDED.is_away
    WHERE autoreply_user_away.user_id = EXCLUDED.user_id *)
Definition update_away_state (is_away : bool) : M unit :=
  db <- get_db (fun db => db) ;;
  let excluded := MkAwayRow user_id is_away in
  set_db (with_user_away db
    (Sql.upsert aw_user_id
       (fun old =>
          if String.eqb (aw_user_id old) (aw_user_id excluded)
          then MkAwayRow (aw_user_id old) (aw_is_away excluded)
          else old)
       excluded (autoreply_user_away db))).

(** SELECT is_away FROM autoreply_user_away WHERE user_id = $1, and
    [False] when the value fetched is [None]. *)
Definition is_away : M bool :=
  ret_ <- get_db (fun db =>
    Sql.fetchval aw_is_away (fun r => String.eqb (aw_user_id r) user_id)
      (autoreply_user_away db)) ;;
  match ret_ with
  | None => ret false
  | Some b => ret b
  end.
End Store.
End AutoReplyBotStore.

(** ** [AutoReplyBot] ([__init__.py]) *)

Module Store := AutoReplyBotStore.

(** The fields of the plugin that the handlers read.  [start] builds the
    store with [user_id=self.client.mxid], so [mxid] is also the store's
    user.  [m_direct] is what [self.client.get_account_data("m.direct")]
    gives: the mapping (keys in iteration order), or the exception the
    request raised. *)
Record AutoReplyBot : Type := MkAutoReplyBot {
  mxid : string;
  management_room : string;
  config_message : string;
  m_direct : Exception + list (string * list string)
}.

Definition nl : string := String (ascii_of_nat 10) EmptyString.

Definition startswith (s prefix : string) : bool := String.prefix prefix s.

(** The inner loop of [_is_direct]: [for room in rooms]. *)
Fixpoint scan_rooms (room_id : string) (rooms : list string) : bool :=
  match rooms with
  | [] => false
  | room :: rest =>
      if String.eqb room room_id then true else scan_rooms room_id rest
  end.

(** The outer loop of [_is_direct]: [for _, rooms in data.items()]. *)
Fixpoint scan_items (room_id : string) (items : list (string * list string))
    : bool :=
  match items with
  | [] => false
  | (_, rooms) :: rest =>
      if scan_rooms room_id rooms then true else scan_items room_id rest
  end.

Definition _is_direct (self : AutoReplyBot) (room_id : string) : M bool :=
  match m_direct self with
  | inl e => raise e
  | inr data => ret (scan_items room_id data)
  end.

Definition is_None {A} (o : option A) : bool :=
  match o with None => true | Some _ => false end.

Definition _auto_reply (self : AutoReplyBot) (evt : MessageEvent) : M unit :=
  c <- and_then (ret (negb (String.eqb (sender evt) (mxid self))))
      (and_then (Store.is_away (mxid self))
      (and_then (m <- Store.get_message_id_in_room (mxid self) (room_id evt) ;;
                 ret (is_None m))
                (_is_direct self (room_id evt)))) ;;
  when c
    (reply evt (config_message self) None ;;;
     Store.store_message (mxid self) (event_id evt) (room_id evt)).

Definition _generate_room_entry (room_id event_id : string) : string :=
  let entry := "[" ^^ room_id ^^ "](https://matrix.to/#/" ^^ room_id ^^ ")" in
  entry ^^ (" ([view message](https://matrix.to/#/" ^^ room_id ^^ "/"
            ^^ event_id ^^ "))").

Definition nothing_missed : string :=
  "You haven't missed any message while you were away.".

Definition summary_header : string :=
  "While you were away, you have missed messages in the following DM(s):"
  ^^ nl.

(** The part of [_generate_missed_messages_summary] after the fetch: the
    early return, then the loop that appends one entry per message. *)
Definition summary_text (messages : list (string * string)) : string :=
  if Nat.eqb (length messages) 0 then nothing_missed
  else
    fold_left
      (fun summary '(room_id, event_id) =>
         summary ^^ (nl ^^ "* " ^^ _generate_room_entry room_id event_id))
      messages summary_header.

Definition _generate_missed_messages_summary (self : AutoReplyBot) : M string :=
  messages <- Store.get_missed_messages (mxid self) ;;
  ret (summary_text messages).

(** The bodies of the three [if] statements of
    [_handle_management_command]. *)
Definition on_clear (self : AutoReplyBot) (evt : MessageEvent) : M unit :=
  Store.clear_messages (mxid self) ;;;
  reply evt "Cleared messages" None.

Definition on_away (self : AutoReplyBot) (evt : MessageEvent) : M unit :=
  Store.update_away_state (mxid self) true ;;;
  reply evt "Your status has been updated. Have a nice break!" None.

Definition on_back (self : AutoReplyBot) (evt : MessageEvent) : M unit :=
  Store.update_away_state (mxid self) false ;;;
  let reply_content :=
    "Your status has been updated. Welcome back!" ^^ nl ^^ nl in
  summary <- _generate_missed_messages_summary self ;;
  let reply_content := reply_content ^^ summary in
  reply evt reply_content (Some true) ;;;
  Store.clear_messages (mxid self).

Definition _handle_management_command (self : AutoReplyBot)
    (evt : MessageEvent) : M unit :=
  when (startswith (body evt) "!clear") (on_clear self evt) ;;;
  when (startswith (body evt) "!away") (on_away self evt) ;;;
  when (startswith (body evt) "!back") (on_back self evt).

Definition handle_message (self : AutoReplyBot) (evt : MessageEvent) : M unit :=
  if String.eqb (room_id evt) (management_room self)
  then _handle_management_command self evt
  else _auto_reply self evt.

(** ** Running a computation *)

(** The value (or exception) a computation ends with, and the world it
    leaves. *)
Definition value {A} (m : M A) (w : World) : Exception + A := snd (m w).
Definition effect {A} (m : M A) (w : World) : World := fst (m w).

(** The events handed to the plugin one after the other; an exception
    raised by a handler is logged by the host and the next event is
    handled in the world the failed handler left. *)
Fixpoint handle_all (self : AutoReplyBot) (evts : list MessageEvent)
    (w : World) : World :=
  match evts with
  | [] => w
  | evt :: rest => handle_all self rest (effect (handle_message self evt) w)
  end.

(** ** Predicates used by the statements *)

(** [room] is listed in some sequence of the [m.direct] mapping. *)
Definition listed_direct (room : string) (data : list (string * list string))
    : Prop :=
  exists key rooms, In (key, rooms) data /\ In room rooms.

(** Every marker of the table was written for [uid]: the table has served
    a single owner. *)
Definition markers_owned (uid : string) (db : Database) : Prop :=
  forall row, In row (autoreply_messages db) -> msg_user_id row = uid.

(** No other owner's marker occupies [room]. *)
Definition room_owned (uid room : string) (db : Database) : Prop :=
  forall row, In row (autoreply_messages db) ->
    msg_room_id row = room -> msg_user_id row = uid.

Definition owner_row (uid : string) (r : message_row) : bool :=
  String.eqb (msg_user_id r) uid.

Definition in_room (room : string) (r : message_row) : bool :=
  String.eqb (msg_room_id r) room.

Definition away_row_of (uid : string) (r : away_row) : bool :=
  String.eqb (aw_user_id r) uid.

(** The links of a summary bullet, as the fixed templates give them. *)
Definition matrix_to_room (room : string) : string :=
  "https://matrix.to/#/" ^^ room.

Definition matrix_to_event (room event : string) : string :=
  "https://matrix.to/#/" ^^ room ^^ "/" ^^ event.

(** One bullet of the report as it is described: a new line, the bullet
    mark, the room identifier as a link to the room, and the link to the
    first missed event. *)
Definition bullet (marker : string * string) : string :=
  nl ^^ "* " ^^ "[" ^^ fst marker ^^ "](" ^^ matrix_to_room (fst marker) ^^ ")"
     ^^ " ([view message]("
     ^^ matrix_to_event (fst marker) (snd marker) ^^ "))".

(** One bullet per marker, in the order of the list. *)
Fixpoint bullets (markers : list (string * string)) : string :=
  match markers with
  | [] => ""
  | marker :: rest => bullet marker ^^ bullets rest
  end.

(** A text occurs inside another. *)
Definition contains (text part : string) : Prop :=
  exists before after, text = before ^^ part ^^ after.

(** The three criteria the handler tests before it asks for the account
    data: the sender is not the bot, the store says away, the store has no
    marker of the owner for the room. *)
Definition reaches_lookup (self : AutoReplyBot) (evt : MessageEvent)
    (w : World) : Prop :=
  sender evt <> mxid self /\
  value (Store.is_away (mxid self)) w = inr true /\
  value (Store.get_message_id_in_room (mxid self) (room_id evt)) w = inr None.

(** The four criteria: the three above, and the room is listed in some
    sequence of the mapping the account-data lookup returns. *)
Definition criteria (self : AutoReplyBot) (evt : MessageEvent) (w : World)
    : Prop :=
  reaches_lookup self evt w /\
  exists data, m_direct self = inr data /\ listed_direct (room_id evt) data.

(** The world once the reply is sent and the marker of the triggering
    message is stored. *)
Definition replied_and_marked (self : AutoReplyBot) (evt : MessageEvent)
    (w : World) : World :=
  MkWorld
    (Store.with_messages (database w)
       (autoreply_messages (database w)
          ++ [MkMessageRow (room_id evt) (event_id evt) (mxid self)]))
    (sent w
       ++ [MkReply (room_id evt) (event_id evt) (config_message self) None]).

(** A body that starts with one of the three commands. *)
Definition recognized (body : string) : bool :=
  startswith body "!clear" || startswith body "!away"
  || startswith body "!back".

(** ** The claims as the specification words them *)

(** The auto-reply as the specification states it: the handler either
    replies and stores the marker, which it does when the four criteria
    hold, or does nothing at all, and in both cases returns normally. *)
Definition auto_reply_as_stated (self : AutoReplyBot) (evt : MessageEvent)
    (w : World) : Prop :=
  room_id evt <> management_room self ->
  (criteria self evt w /\
   handle_message self evt w = (replied_and_marked self evt w, inr tt))
  \/ (~ criteria self evt w /\ handle_message self evt w = (w, inr tt)).

(** The specification's reading of a failed lookup: the room counts as
    not direct, so the handler sends nothing and returns normally. *)
Definition lookup_failure_swallowed (self : AutoReplyBot)
    (evt : MessageEvent) (w : World) : Prop :=
  (exists e, m_direct self = inl e) ->
  sent (effect (_auto_reply self evt) w) = sent w /\
  value (_auto_reply self evt) w = inr tt.

(** ** Example worlds *)

Definition me : AutoReplyBot :=
  MkAutoReplyBot "@me:hs" "!mgmt:hs" "I am away, I will answer later."
    (inr [("@alice:hs", ["!dm:hs"]); ("@bob:hs", ["!old:hs"; "!bob:hs"])]).

Definition missed_example : World :=
  MkWorld (MkDatabase [MkManagementRow "@me:hs" "!mgmt:hs"]
             [MkMessageRow "!dm:hs" "$first" "@me:hs";
              MkMessageRow "!bob:hs" "$hello" "@me:hs"]
             [MkAwayRow "@me:hs" true])
          [].

(** The bot of [me] when the homeserver refuses the account-data request. *)
Definition me_lookup_failing : AutoReplyBot :=
  MkAutoReplyBot "@me:hs" "!mgmt:hs" "I am away, I will answer later."
    (inl MatrixRequestError).

Definition away_world : World :=
  MkWorld (MkDatabase [MkManagementRow "@me:hs" "!mgmt:hs"] []
             [MkAwayRow "@me:hs" true])
          [].

Definition first_message : MessageEvent :=
  MkMessageEvent "@alice:hs" "!dm:hs" "$first" "are you there?".

Definition away_example : World :=
  MkWorld (MkDatabase [] [] [MkAwayRow "@bob:hs" false; MkAwayRow "@me:hs" true])
          [].

Definition foreign_marker_example : World :=
  MkWorld (MkDatabase [] [MkMessageRow "!dm:hs" "$first" "@other:hs"]
             [MkAwayRow "@me:hs" true])
          [].

(** ** Startup ([start], [_create_management_room])

    [start] also talks to the homeserver through [client.create_room].  The
    calls made are recorded next to the world; the homeserver's answer to a
    request is a field of the client. *)

(** An entry of [initial_state]: the event type and its content. *)
Record StateEvent : Type := MkStateEvent {
  state_type : string;
  state_content : list (string * string)
}.

(** The keyword arguments of [client.create_room]. *)
Record CreateRoomRequest : Type := MkCreateRoomRequest {
  create_name : string;
  create_initial_state : list StateEvent
}.

(** The configuration once loaded: [config["message"]], and
    [config["room"]["name"]] and [config["room"]["icon"]]. *)
Record Config : Type := MkConfig {
  message : string;
  room_name : string;
  room_icon : string
}.

(** [self.client]: its [mxid], what [get_account_data("m.direct")] gives,
    and what [create_room] gives for a request (the new room's identifier,
    or the exception the request raised). *)
Record Client : Type := MkClient {
  client_mxid : string;
  get_account_data_m_direct : Exception + list (string * list string);
  create_room_response : CreateRoomRequest -> Exception + string
}.

Record Host : Type := MkHost {
  host_world : World;
  create_room_calls : list CreateRoomRequest   (* oldest first *)
}.

Definition HM (A : Type) : Type := Host -> Host * (Exception + A).

Definition hret {A} (a : A) : HM A := fun h => (h, inr a).

Definition hbind {A B} (m : HM A) (k : A -> HM B) : HM B :=
  fun h =>
    match m h with
    | (h', inl e) => (h', inl e)
    | (h', inr a) => k a h'
    end.

Notation "x <~ m ;; k" := (hbind m (fun x => k))
  (at level 61, m at next level, right associativity).

(** A store or reply operation run inside startup code. *)
Definition lift {A} (m : M A) : HM A :=
  fun h =>
    match m (host_world h) with
    | (w', r) => (MkHost w' (create_room_calls h), r)
    end.

(** [await self.client.create_room(...)]. *)
Definition create_room (client : Client) (request : CreateRoomRequest)
    : HM string :=
  fun h =>
    let h' := MkHost (host_world h) (create_room_calls h ++ [request]) in
    match create_room_response client request with
    | inl e => (h', inl e)
    | inr room => (h', inr room)
    end.

Definition _create_management_room (client : Client) (config : Config)
    : HM string :=
  room_id <~ create_room client
      (MkCreateRoomRequest (room_name config)
         [MkStateEvent "m.room.avatar" [("url", room_icon config)];
          MkStateEvent "m.room.encryption"
            [("algorithm", "m.megolm.v1.aes-sha2")]]) ;;
  _ <~ lift (Store.store_management_room (client_mxid client) room_id) ;;
  hret room_id.

(** [start]: the store is built for [self.client.mxid]; the result is the
    plugin with its [management_room] set. *)
Definition start (client : Client) (config : Config) : HM AutoReplyBot :=
  let started room :=
    MkAutoReplyBot (client_mxid client) room (message config)
      (get_account_data_m_direct client) in
  management_room <~ lift (Store.get_management_room (client_mxid client)) ;;
  match management_room with
  | None =>
      room <~ _create_management_room client config ;;
      hret (started room)
  | Some room => hret (started room)
  end.

(** ** Predicates of the further properties *)

(** The four queries of the store answer for [uid] in [w'] as in [w]. *)
Definition same_answers (uid : string) (w w' : World) : Prop :=
  value (Store.is_away uid) w' = value (Store.is_away uid) w /\
  value (Store.get_management_room uid) w'
    = value (Store.get_management_room uid) w /\
  value (Store.get_missed_messages uid) w'
    = value (Store.get_missed_messages uid) w /\
  (forall room,
     value (Store.get_message_id_in_room uid room) w'
       = value (Store.get_message_id_in_room uid room) w).

(** Markers of [uid] exist only while [uid] is away. *)
Definition markers_only_while_away (uid : string) (w : World) : Prop :=
  value (Store.is_away uid) w = inr false ->
  value (Store.get_missed_messages uid) w = inr [].

(** What the handlers keep: the key constraints, the single ownership of
    the markers, and no marker while not away. *)
Definition consistent (uid : string) (w : World) : Prop :=
  constraints (database w) /\
  markers_owned uid (database w) /\
  markers_only_while_away uid w.

(** A message of [room] that the bot did not send. *)
Definition from_other_in (self : AutoReplyBot) (room : string)
    (evt : MessageEvent) : Prop :=
  sender evt <> mxid self /\ room_id evt = room.

(** The auto-reply to [evt]. *)
Definition auto_reply_to (self : AutoReplyBot) (evt : MessageEvent) : Reply :=
  MkReply (room_id evt) (event_id evt) (config_message self) None.

(** The request [_create_management_room] is expected to make: the
    configured name, the configured avatar, end-to-end encryption. *)
Definition management_room_request (config : Config) : CreateRoomRequest :=
  MkCreateRoomRequest (room_name config)
    [MkStateEvent "m.room.avatar" [("url", room_icon config)];
     MkStateEvent "m.room.encryption" [("algorithm", "m.megolm.v1.aes-sha2")]].

(** The plugin [start] leaves for a client, a configuration and a room. *)
Definition started_with (client : Client) (config : Config) (room : string)
    : AutoReplyBot :=
  MkAutoReplyBot (client_mxid client) room (message config)
    (get_account_data_m_direct client).

(** A client, a configuration and a homeserver answer for the examples. *)
Definition example_config : Config :=
  MkConfig "I am away, I will answer later." "Autoreply" "mxc://hs/icon".

Definition example_client : Client :=
  MkClient "@me:hs" (inr [("@alice:hs", ["!dm:hs"])])
    (fun _ => inr "!mgmt:hs").

Definition fresh_host : Host := MkHost (MkWorld schema_v1 []) [].

(** The away table [update_away_state] writes, from the table it finds. *)
Definition set_away (uid : string) (b : bool) (t : list away_row)
    : list away_row :=
  autoreply_user_away
    (database (effect (Store.update_away_state uid b)
                 (MkWorld (MkDatabase [] [] t) []))).

Arguments set_away : simpl never.

(** What the DO UPDATE clause makes of a row. *)
Definition rewrite_row (uid : string) (b : bool) (old : away_row) : away_row :=
  if String.eqb (aw_user_id old) uid then MkAwayRow (aw_user_id old) b
  else old.

(** ** Lemmas on tables *)

Section TableLemmas.
Variable Row : Type.
Variable pk : Row -> string.

Lemma fetchval_None (A : Type) (col : Row -> A) p (t : list Row) :
  Sql.fetchval col p t = None <-> (forall r, In r t -> p r = false).
Proof.
  unfold Sql.fetchval, Sql.fetch. split.
  - intros H r Hr. destruct (p r) eqn:E; [|reflexivity].
    assert (Hin : In r (filter p t)) by (apply filter_In; auto).
    destruct (filter p t); [destruct Hin | discriminate].
  - intros H. destruct (filter p t) as [|r l] eqn:E; [reflexivity|].
    assert (Hin : In r (filter p t)) by (rewrite E; left; reflexivity).
    apply filter_In in Hin. destruct Hin as [Hin Hp].
    rewrite (H r Hin) in Hp. discriminate.
Qed.

Lemma has_key_false k (t : list Row) :
  Sql.has_key pk k t = false <-> (forall r, In r t -> pk r <> k).
Proof.
  unfold Sql.has_key. induction t as [|x t IH]; simpl.
  - split; [intros _ r [] | reflexivity].
  - rewrite orb_false_iff, IH, String.eqb_neq. split.
    + intros [Hx Ht] r [<-|Hr]; auto.
    + intros H. split; [apply H; now left | intros r Hr; apply H; now right].
Qed.

Lemma has_key_true k (t : list Row) :
  Sql.has_key pk k t = true <-> (exists r, In r t /\ pk r = k).
Proof.
  unfold Sql.has_key. rewrite existsb_exists.
  split; intros [r [Hr He]]; exists r; split; auto;
    now apply String.eqb_eq.
Qed.

Lemma has_key_in_map k (t : list Row) :
  Sql.has_key pk k t = false -> ~ In k (map pk t).
Proof.
  intros H Hin. apply in_map_iff in Hin. destruct Hin as [r [He Hr]].
  rewrite has_key_false in H. now apply (H r Hr).
Qed.

Lemma insert_pk_ok r (t t' : list Row) :
  Sql.pk_ok pk t -> Sql.insert pk r t = inr t' -> Sql.pk_ok pk t'.
Proof.
  unfold Sql.insert, Sql.pk_ok. intros Hnd.
  destruct (Sql.has_key pk (pk r) t) eqn:E; [discriminate|].
  intros [= <-]. rewrite map_app. simpl.
  apply has_key_in_map in E. revert Hnd E.
  generalize (pk r) as k. generalize (map pk t) as ks.
  induction ks as [|x ks IH]; simpl; intros k Hnd Hk.
  - constructor; [intros [] | constructor].
  - inversion Hnd as [|? ? Hx Hks]; subst. constructor.
    + rewrite in_app_iff. simpl. intros [H|[H|[]]]; [tauto|].
      apply Hk. now left.
    + apply IH; [assumption | tauto].
Qed.

Lemma filter_pk_ok p (t : list Row) :
  Sql.pk_ok pk t -> Sql.pk_ok pk (filter p t).
Proof.
  unfold Sql.pk_ok. induction t as [|x t IH]; simpl; [auto|].
  intros Hnd. inversion Hnd as [|? ? Hx Ht]; subst.
  destruct (p x); simpl; [|auto].
  constructor; [|auto].
  intros Hin. apply Hx. apply in_map_iff in Hin.
  destruct Hin as [y [He Hy]]. apply filter_In in Hy.
  apply in_map_iff. exists y. tauto.
Qed.

(** With the key constraint, the row of key [k] is the one [fetchval]
    reads. *)
Lemma fetchval_pk (A : Type) (col : Row -> A) k r (t : list Row) :
  Sql.pk_ok pk t -> In r t -> pk r = k ->
  Sql.fetchval col (fun x => String.eqb (pk x) k) t = Some (col r).
Proof.
  unfold Sql.pk_ok, Sql.fetchval, Sql.fetch.
  induction t as [|x t IH]; simpl; [intros _ []|].
  intros Hnd Hin Hk. inversion Hnd as [|? ? Hx Ht]; subst.
  destruct Hin as [->|Hin].
  - rewrite String.eqb_refl. reflexivity.
  - destruct (String.eqb (pk x) (pk r)) eqn:E.
    + apply String.eqb_eq in E. exfalso. apply Hx. rewrite E.
      now apply in_map.
    + now apply IH.
Qed.
End TableLemmas.

(** ** Lemmas on the store *)

Ltac run_m :=
  unfold value, effect, Store.is_away, Store.get_message_id_in_room,
    Store.get_missed_messages, Store.get_management_room,
    Store.store_message, Store.clear_messages, Store.update_away_state,
    Store.with_messages, Store.with_user_away,
    and_then, when, reply, bind, ret, raise, get_db, set_db in *;
  simpl in *.

Section AwayTable.
Variable uid : string.
Variable b : bool.

#[local] Abbreviation set_away := (set_away uid b).
#[local] Abbreviation rewrite_row := (rewrite_row uid b).

Lemma set_away_eq t :
  set_away t =
  if Sql.has_key aw_user_id uid t then map rewrite_row t
  else t ++ [MkAwayRow uid b].
Proof.
  unfold set_away. run_m. unfold Sql.upsert. simpl.
  destruct (Sql.has_key aw_user_id uid t); [|reflexivity].
  apply map_ext. intros old. unfold rewrite_row.
  destruct (String.eqb (aw_user_id old) uid); reflexivity.
Qed.

Lemma update_away_state_eq w :
  Store.update_away_state uid b w =
  (MkWorld (Store.with_user_away (database w)
              (set_away (autoreply_user_away (database w)))) (sent w),
   inr tt).
Proof. reflexivity. Qed.

Lemma rewrite_row_key r : aw_user_id (rewrite_row r) = aw_user_id r.
Proof.
  unfold rewrite_row. destruct (String.eqb (aw_user_id r) uid); reflexivity.
Qed.

Lemma rewrite_row_idem r : rewrite_row (rewrite_row r) = rewrite_row r.
Proof.
  unfold rewrite_row. destruct (String.eqb (aw_user_id r) uid) eqn:E; simpl;
    rewrite E; reflexivity.
Qed.

Lemma set_away_keys t :
  Sql.has_key aw_user_id uid t = true ->
  map aw_user_id (set_away t) = map aw_user_id t.
Proof.
  intros H. rewrite set_away_eq, H, map_map. apply map_ext.
  apply rewrite_row_key.
Qed.

Lemma set_away_has_key t : Sql.has_key aw_user_id uid (set_away t) = true.
Proof.
  rewrite set_away_eq. destruct (Sql.has_key aw_user_id uid t) eqn:E.
  - apply has_key_true in E. destruct E as [r [Hr Hk]].
    apply has_key_true. exists (rewrite_row r). split.
    + now apply in_map.
    + now rewrite rewrite_row_key.
  - apply has_key_true. exists (MkAwayRow uid b). split; [|reflexivity].
    apply in_or_app. right. now left.
Qed.

Lemma set_away_idem t : set_away (set_away t) = set_away t.
Proof.
  rewrite (set_away_eq (set_away t)), set_away_has_key.
  rewrite set_away_eq. destruct (Sql.has_key aw_user_id uid t) eqn:E.
  - rewrite map_map. apply map_ext. apply rewrite_row_idem.
  - rewrite map_app. simpl. unfold rewrite_row at 2. simpl.
    rewrite String.eqb_refl. f_equal.
    rewrite has_key_false in E. rewrite <- (map_id t) at 2.
    apply map_ext_in. intros r Hr. unfold rewrite_row.
    apply E in Hr. apply String.eqb_neq in Hr. now rewrite Hr.
Qed.

Lemma set_away_value r t :
  In r (set_away t) -> aw_user_id r = uid -> aw_is_away r = b.
Proof.
  rewrite set_away_eq. destruct (Sql.has_key aw_user_id uid t) eqn:E.
  - intros Hin Hk. apply in_map_iff in Hin. destruct Hin as [old [<- _]].
    rewrite rewrite_row_key in Hk. unfold rewrite_row.
    apply String.eqb_eq in Hk. now rewrite Hk.
  - intros Hin Hk. apply in_app_or in Hin. destruct Hin as [Hin|[<-|[]]].
    + rewrite has_key_false in E. now apply E in Hin.
    + reflexivity.
Qed.

Lemma fetchval_set_away t :
  Sql.fetchval aw_is_away (away_row_of uid) (set_away t) = Some b.
Proof.
  pose proof (set_away_has_key t) as Hk.
  pose proof (fun r => @set_away_value r t) as Hv.
  revert Hk Hv. generalize (set_away t) as t'.
  unfold Sql.fetchval, Sql.fetch, Sql.has_key, away_row_of.
  induction t' as [|x t' IH]; simpl; [discriminate|].
  intros Hk Hv. destruct (String.eqb (aw_user_id x) uid) eqn:E.
  - f_equal. apply Hv; [now left | now apply String.eqb_eq].
  - apply IH; [assumption | intros r Hr; apply Hv; now right].
Qed.

Lemma count_key (t : list away_row) :
  Sql.count (away_row_of uid) t =
  length (filter (fun k => String.eqb k uid) (map aw_user_id t)).
Proof.
  unfold Sql.count, away_row_of. induction t as [|x t IH]; simpl; [reflexivity|].
  destruct (String.eqb (aw_user_id x) uid); simpl; now rewrite IH.
Qed.

Lemma count_nodup (ks : list string) :
  NoDup ks -> In uid ks ->
  length (filter (fun k => String.eqb k uid) ks) = 1.
Proof.
  induction ks as [|k ks IH]; simpl; [intros _ []|].
  intros Hnd Hin. inversion Hnd as [|? ? Hk Hks]; subst.
  destruct (String.eqb k uid) eqn:E.
  - apply String.eqb_eq in E. subst k. simpl. f_equal.
    assert (Hnone : forall l, ~ In uid l ->
              filter (fun k => String.eqb k uid) l = []).
    { induction l as [|y l IHl]; simpl; [reflexivity|]. intros Hn.
      destruct (String.eqb y uid) eqn:Ey.
      - apply String.eqb_eq in Ey. tauto.
      - apply IHl. tauto. }
    now rewrite Hnone.
  - apply String.eqb_neq in E. destruct Hin as [->|Hin]; [tauto|]. auto.
Qed.

Lemma set_away_pk_ok t :
  Sql.pk_ok aw_user_id t -> Sql.pk_ok aw_user_id (set_away t).
Proof.
  intros Hpk. destruct (Sql.has_key aw_user_id uid t) eqn:E.
  - unfold Sql.pk_ok. now rewrite set_away_keys.
  - rewrite set_away_eq, E.
    apply insert_pk_ok with (r := MkAwayRow uid b) (t := t); [assumption|].
    unfold Sql.insert. simpl. now rewrite E.
Qed.

Lemma set_away_count t :
  Sql.pk_ok aw_user_id t -> Sql.count (away_row_of uid) (set_away t) = 1.
Proof.
  intros Hpk. rewrite count_key. apply count_nodup.
  - now apply set_away_pk_ok.
  - pose proof (set_away_has_key t) as H. apply has_key_true in H.
    destruct H as [r [Hr Hk]]. apply in_map_iff. now exists r.
Qed.
End AwayTable.

Section MessagesTable.
Variable uid : string.

Lemma clear_messages_eq w :
  Store.clear_messages uid w =
  (MkWorld (Store.with_messages (database w)
              (filter (fun r => negb (owner_row uid r))
                 (autoreply_messages (database w)))) (sent w),
   inr tt).
Proof. reflexivity. Qed.

Lemma filter_not_owner_none (t : list message_row) :
  filter (owner_row uid) (filter (fun r => negb (owner_row uid r)) t) = [].
Proof.
  induction t as [|x t IH]; simpl; [reflexivity|].
  destruct (owner_row uid x) eqn:E; simpl; [assumption|].
  now rewrite E.
Qed.

Lemma get_missed_messages_eq w :
  Store.get_missed_messages uid w =
  (w, inr (map (fun row => (msg_room_id row, msg_event_id row))
             (filter (owner_row uid) (autoreply_messages (database w))))).
Proof. reflexivity. Qed.

Lemma get_message_id_in_room_eq room w :
  Store.get_message_id_in_room uid room w =
  (w, inr (Sql.fetchval msg_event_id
             (fun r => in_room room r && owner_row uid r)
             (autoreply_messages (database w)))).
Proof. reflexivity. Qed.

Lemma store_message_eq event room w :
  Store.store_message uid event room w =
  if Sql.has_key msg_room_id room (autoreply_messages (database w))
  then (w, inl IntegrityError)
  else (MkWorld (Store.with_messages (database w)
                   (autoreply_messages (database w)
                      ++ [MkMessageRow room event uid])) (sent w),
        inr tt).
Proof.
  run_m. unfold Sql.insert. simpl.
  destruct (Sql.has_key msg_room_id room (autoreply_messages (database w)));
    reflexivity.
Qed.

(** No marker of the owner is left in a table the owner's rows were
    deleted from. *)
Lemma fetchval_cleared room (t : list message_row) :
  Sql.fetchval msg_event_id (fun r => in_room room r && owner_row uid r)
    (filter (fun r => negb (owner_row uid r)) t) = None.
Proof.
  apply fetchval_None. intros r Hr. apply filter_In in Hr.
  destruct Hr as [_ Hr]. apply negb_true_iff in Hr. rewrite Hr.
  apply andb_false_r.
Qed.

(** The marker just appended is the one read back when the owner had
    none in the room. *)
Lemma fetchval_appended room event (t : list message_row) :
  Sql.fetchval msg_event_id (fun r => in_room room r && owner_row uid r) t
    = None ->
  Sql.fetchval msg_event_id (fun r => in_room room r && owner_row uid r)
    (t ++ [MkMessageRow room event uid]) = Some event.
Proof.
  intros H. rewrite fetchval_None in H.
  unfold Sql.fetchval, Sql.fetch. rewrite filter_app.
  assert (E : filter (fun r => in_room room r && owner_row uid r) t = []).
  { induction t as [|x t IH]; simpl; [reflexivity|].
    rewrite (H x) by now left. apply IH. intros r Hr. apply H. now right. }
  rewrite E. simpl. unfold in_room, owner_row. simpl.
  now rewrite !String.eqb_refl.
Qed.
End MessagesTable.

(** ** The store: away flag and marker key *)

(** C9: [is_away] reads the store without changing it; it returns [False]
    when the away table holds no record for the owner, and the stored
    boolean of the owner's record otherwise (under the key constraint of
    the table, which makes that record unique).  An absent record thus
    gives the same answer as a stored [False]. *)
Theorem is_away_default_false (uid : string) (w : World) :
  effect (Store.is_away uid) w = w /\
  ((forall row, In row (autoreply_user_away (database w)) ->
      aw_user_id row <> uid) ->
   value (Store.is_away uid) w = inr false) /\
  (forall stored,
     Sql.pk_ok aw_user_id (autoreply_user_away (database w)) ->
     In (MkAwayRow uid stored) (autoreply_user_away (database w)) ->
     value (Store.is_away uid) w = inr stored).
Proof.
  split; [|split].
  - run_m. destruct (Sql.fetchval _ _ _); reflexivity.
  - intros Habsent. run_m.
    assert (E : Sql.fetchval aw_is_away
                  (fun r => String.eqb (aw_user_id r) uid)
                  (autoreply_user_away (database w)) = None).
    { apply fetchval_None. intros r Hr. apply String.eqb_neq. auto. }
    now rewrite E.
  - intros stored Hpk Hin. run_m.
    rewrite (@fetchval_pk _ aw_user_id _ aw_is_away uid (MkAwayRow uid stored))
      by auto.
    reflexivity.
Qed.

Lemma is_away_default_false_witness :
  value (Store.is_away "@nobody:hs") away_example = inr false /\
  value (Store.is_away "@me:hs") away_example = inr true.
Proof.
  destruct (is_away_default_false "@nobody:hs" away_example) as [_ [Habsent _]].
  destruct (is_away_default_false "@me:hs" away_example) as [_ [_ Hstored]].
  split.
  - apply Habsent. simpl. intros row [<-|[<-|[]]]; discriminate.
  - apply Hstored.
    + unfold Sql.pk_ok. simpl. repeat constructor; simpl; intuition discriminate.
    + simpl. auto.
Defined.

(** C7: [update_away_state] is an idempotent upsert.  Called twice with the
    same flag (in particular [True]) it raises nothing, [is_away] then
    returns that flag, the second call leaves the world exactly as the
    first left it, and under the key constraint of the away table the owner
    has exactly one record (and the constraint still holds). *)
Theorem update_away_state_idempotent (uid : string) (is_away : bool)
    (w : World) :
  Sql.pk_ok aw_user_id (autoreply_user_away (database w)) ->
  let w1 := effect (Store.update_away_state uid is_away) w in
  let w2 := effect (Store.update_away_state uid is_away) w1 in
  value (Store.update_away_state uid is_away) w = inr tt /\
  value (Store.update_away_state uid is_away) w1 = inr tt /\
  value (Store.is_away uid) w1 = inr is_away /\
  value (Store.is_away uid) w2 = inr is_away /\
  w2 = w1 /\
  Sql.count (away_row_of uid) (autoreply_user_away (database w1)) = 1 /\
  Sql.count (away_row_of uid) (autoreply_user_away (database w2)) = 1 /\
  Sql.pk_ok aw_user_id (autoreply_user_away (database w2)).
Proof.
  intros Hpk w1 w2.
  assert (E1 : w1 = MkWorld (Store.with_user_away (database w)
                 (set_away uid is_away (autoreply_user_away (database w))))
                 (sent w)) by reflexivity.
  assert (E2 : w2 = w1).
  { unfold w2. unfold effect. rewrite update_away_state_eq. rewrite E1. simpl.
    unfold Store.with_user_away. simpl. now rewrite set_away_idem. }
  assert (Hv : value (Store.is_away uid) w1 = inr is_away).
  { rewrite E1. unfold value, Store.is_away, bind, get_db. simpl.
    change (fun r => String.eqb (aw_user_id r) uid) with (away_row_of uid).
    now rewrite fetchval_set_away. }
  assert (Hc : Sql.count (away_row_of uid)
                 (autoreply_user_away (database w1)) = 1).
  { rewrite E1. simpl. now apply set_away_count. }
  rewrite E2. repeat split; try assumption.
  rewrite E1. simpl. now apply set_away_pk_ok.
Qed.

Lemma update_away_state_idempotent_witness :
  let w1 := effect (Store.update_away_state "@me:hs" true) away_example in
  effect (Store.update_away_state "@me:hs" true) w1 = w1 /\
  Sql.count (away_row_of "@me:hs") (autoreply_user_away (database w1)) = 1.
Proof.
  assert (Hpk : Sql.pk_ok aw_user_id (autoreply_user_away (database away_example))).
  { unfold Sql.pk_ok. simpl. repeat constructor; simpl; intuition discriminate. }
  pose proof (update_away_state_idempotent "@me:hs" true away_example Hpk) as H.
  simpl in H. simpl. tauto.
Defined.

(** C10: the key of the missed-messages table is [room_id] alone.  When a
    row already holds the room, under whatever owner, [store_message]
    raises the constraint violation and leaves the world (the row included)
    untouched; [store_message] keeps the constraint, and under it a room has
    at most one row, all owners together. *)
Theorem store_message_room_key (uid event room : string) (w : World) :
  (forall row, In row (autoreply_messages (database w)) ->
     msg_room_id row = room ->
     Store.store_message uid event room w = (w, inl IntegrityError)) /\
  (Sql.pk_ok msg_room_id (autoreply_messages (database w)) ->
   Sql.pk_ok msg_room_id
     (autoreply_messages
        (database (effect (Store.store_message uid event room) w))) /\
   Sql.count (in_room room) (autoreply_messages (database w)) <= 1).
Proof.
  split.
  - intros row Hin Hroom. rewrite store_message_eq.
    assert (E : Sql.has_key msg_room_id room
                  (autoreply_messages (database w)) = true).
    { apply has_key_true. now exists row. }
    now rewrite E.
  - intros Hpk. split.
    + unfold effect. rewrite store_message_eq.
      destruct (Sql.has_key msg_room_id room
                  (autoreply_messages (database w))) eqn:E; simpl; [assumption|].
      apply insert_pk_ok with (r := MkMessageRow room event uid)
                              (t := autoreply_messages (database w));
        [assumption|].
      unfold Sql.insert. simpl. now rewrite E.
    + revert Hpk. unfold Sql.pk_ok, Sql.count, in_room.
      induction (autoreply_messages (database w)) as [|x t IH]; simpl; [lia|].
      intros Hnd. inversion Hnd as [|? ? Hx Ht]; subst.
      destruct (String.eqb (msg_room_id x) room) eqn:E; simpl; [|auto].
      apply String.eqb_eq in E.
      assert (Hnone : filter (fun r => String.eqb (msg_room_id r) room) t = []).
      { destruct (filter _ t) as [|y l] eqn:Ef; [reflexivity|].
        assert (Hy : In y (filter
                     (fun r => String.eqb (msg_room_id r) room) t))
          by (rewrite Ef; now left).
        apply filter_In in Hy. destruct Hy as [Hy Hk].
        apply String.eqb_eq in Hk. exfalso. apply Hx. rewrite E, <- Hk.
        now apply in_map. }
      rewrite Hnone. simpl. lia.
Qed.

Lemma store_message_room_key_witness :
  Store.store_message "@me:hs" "$second" "!dm:hs" foreign_marker_example
    = (foreign_marker_example, inl IntegrityError).
Proof.
  apply (proj1 (store_message_room_key "@me:hs" "$second" "!dm:hs"
                  foreign_marker_example)
           (MkMessageRow "!dm:hs" "$first" "@other:hs")).
  - simpl. auto.
  - reflexivity.
Defined.

(** ** The summary *)

Lemma append_assoc (a b c : string) : (a ^^ b) ^^ c = a ^^ (b ^^ c).
Proof. induction a as [|x a IH]; simpl; [reflexivity | now rewrite IH]. Qed.

Ltac norm_append := repeat (progress (rewrite ?append_assoc; simpl)).

Lemma room_entry_bullet (room event : string) :
  nl ^^ "* " ^^ _generate_room_entry room event = bullet (room, event).
Proof.
  unfold _generate_room_entry, bullet, matrix_to_room, matrix_to_event.
  norm_append. reflexivity.
Qed.

Lemma summary_loop (messages : list (string * string)) (summary : string) :
  fold_left
    (fun summary '(room_id, event_id) =>
       summary ^^ (nl ^^ "* " ^^ _generate_room_entry room_id event_id))
    messages summary
  = summary ^^ bullets messages.
Proof.
  revert summary. induction messages as [|[room event] rest IH];
    intros summary; cbn [fold_left].
  - cbn [bullets]. induction summary as [|x s IHs]; simpl; [reflexivity|].
    now rewrite <- IHs.
  - rewrite IH, room_entry_bullet. cbn [bullets]. now rewrite append_assoc.
Qed.

Lemma generate_summary_eq self w :
  _generate_missed_messages_summary self w =
  (w, inr (summary_text
             (map (fun row => (msg_room_id row, msg_event_id row))
                (filter (owner_row (mxid self))
                   (autoreply_messages (database w)))))).
Proof. reflexivity. Qed.

(** C5: the summary is a function of the marker list the store returns and
    generating it leaves the world as it was.  For the empty list it is the
    fixed sentence; for a non-empty list it is the header followed by one
    bullet per marker in the order of the list, and the bullet of a marker
    holds the matrix.to link of its room and the matrix.to link of its room
    and event. *)
Theorem summary_renders_markers (self : AutoReplyBot) (w : World) :
  (exists markers,
     value (Store.get_missed_messages (mxid self)) w = inr markers /\
     _generate_missed_messages_summary self w
       = (w, inr (summary_text markers))) /\
  summary_text [] = nothing_missed /\
  (forall marker rest,
     summary_text (marker :: rest)
       = summary_header ^^ bullets (marker :: rest)) /\
  (forall room event,
     nl ^^ "* " ^^ _generate_room_entry room event = bullet (room, event) /\
     contains (bullet (room, event)) (matrix_to_room room ^^ ")") /\
     contains (bullet (room, event)) (matrix_to_event room event ^^ ")")).
Proof.
  split; [|split; [|split]].
  - eexists. split; [reflexivity|]. apply generate_summary_eq.
  - reflexivity.
  - intros marker rest. unfold summary_text.
    change (Nat.eqb (length (marker :: rest)) 0) with false.
    cbv iota. apply summary_loop.
  - intros room event. split; [apply room_entry_bullet|]. split.
    + exists (nl ^^ "* " ^^ "[" ^^ room ^^ "]("),
             (" ([view message](" ^^ matrix_to_event room event ^^ "))").
      unfold bullet, matrix_to_room, matrix_to_event.
      norm_append. reflexivity.
    + exists (nl ^^ "* " ^^ "[" ^^ room ^^ "](" ^^ matrix_to_room room ^^ ")"
              ^^ " ([view message]("), ")".
      unfold bullet, matrix_to_room, matrix_to_event.
      norm_append. reflexivity.
Qed.

(** ** Management commands *)

Lemma prefix_cons (a : ascii) (p s : string) :
  String.prefix (String a p) s = true ->
  exists s', s = String a s' /\ String.prefix p s' = true.
Proof.
  destruct s as [|c s]; cbn [String.prefix]; [discriminate|].
  destruct (ascii_dec a c) as [<-|]; [|discriminate].
  intros H. now exists s.
Qed.

Lemma prefix_second (a c1 c2 : ascii) (p s : string) :
  c1 <> c2 ->
  String.prefix (String a (String c1 p)) (String a (String c2 s)) = false.
Proof.
  intros Hne. cbn [String.prefix].
  destruct (ascii_dec a a); [|reflexivity].
  destruct (ascii_dec c1 c2); [contradiction | reflexivity].
Qed.

(** No body starts with two of the three commands: they differ at their
    second character. *)
Lemma commands_exclusive (b : string) :
  (startswith b "!clear" = true ->
     startswith b "!away" = false /\ startswith b "!back" = false) /\
  (startswith b "!away" = true ->
     startswith b "!clear" = false /\ startswith b "!back" = false) /\
  (startswith b "!back" = true ->
     startswith b "!clear" = false /\ startswith b "!away" = false).
Proof.
  unfold startswith.
  split; [|split]; intros Hp;
    apply prefix_cons in Hp; destruct Hp as [s1 [-> Hp]];
    apply prefix_cons in Hp; destruct Hp as [s2 [-> _]];
    split; apply prefix_second; discriminate.
Qed.

Lemma on_clear_eq self evt w :
  on_clear self evt w =
  (MkWorld (Store.with_messages (database w)
              (filter (fun r => negb (owner_row (mxid self) r))
                 (autoreply_messages (database w))))
           (sent w ++ [MkReply (room_id evt) (event_id evt)
                         "Cleared messages" None]),
   inr tt).
Proof. reflexivity. Qed.

Lemma on_away_eq self evt w :
  on_away self evt w =
  (MkWorld (Store.with_user_away (database w)
              (set_away (mxid self) true (autoreply_user_away (database w))))
           (sent w ++ [MkReply (room_id evt) (event_id evt)
                         "Your status has been updated. Have a nice break!"
                         None]),
   inr tt).
Proof. reflexivity. Qed.

Lemma on_back_eq self evt w :
  on_back self evt w =
  (MkWorld
     (MkDatabase (autoreply_management_rooms (database w))
        (filter (fun r => negb (owner_row (mxid self) r))
           (autoreply_messages (database w)))
        (set_away (mxid self) false (autoreply_user_away (database w))))
     (sent w ++ [MkReply (room_id evt) (event_id evt)
                   ("Your status has been updated. Welcome back!" ^^ nl ^^ nl
                    ^^ summary_text
                         (map (fun row => (msg_room_id row, msg_event_id row))
                            (filter (owner_row (mxid self))
                               (autoreply_messages (database w)))))
                   (Some true)]),
   inr tt).
Proof.
  unfold on_back, bind. rewrite update_away_state_eq.
  rewrite generate_summary_eq. cbv beta iota.
  unfold reply. cbv beta iota. rewrite clear_messages_eq.
  reflexivity.
Qed.

Lemma handle_management_command_eq self evt w :
  _handle_management_command self evt w =
  if startswith (body evt) "!clear" then on_clear self evt w
  else if startswith (body evt) "!away" then on_away self evt w
  else if startswith (body evt) "!back" then on_back self evt w
  else (w, inr tt).
Proof.
  destruct (commands_exclusive (body evt)) as [Hc [Ha Hb]].
  unfold _handle_management_command.
  destruct (startswith (body evt) "!clear") eqn:Ec.
  - destruct (Hc eq_refl) as [-> ->]. unfold when, bind, ret.
    rewrite on_clear_eq. reflexivity.
  - destruct (startswith (body evt) "!away") eqn:Ea.
    + destruct (Ha eq_refl) as [_ ->]. unfold when, bind, ret.
      rewrite on_away_eq. reflexivity.
    + destruct (startswith (body evt) "!back") eqn:Eb.
      * unfold when, bind, ret. destruct (on_back self evt w) as [w' [e|[]]];
          reflexivity.
      * reflexivity.
Qed.

(** C6: in the management room the three tests are made one after the
    other, each on its own.  No body passes two of them, so the handler
    runs the branch of the one command the body starts with and nothing
    else; it never raises; a recognized command adds exactly one reply,
    addressed to the command event; a body that starts with none of the
    three commands leaves the world as it was, without reply. *)
Theorem management_command_dispatch (self : AutoReplyBot)
    (evt : MessageEvent) (w : World) :
  let b := body evt in
  let w' := effect (_handle_management_command self evt) w in
  _handle_management_command self evt
    = (when (startswith b "!clear") (on_clear self evt) ;;;
       when (startswith b "!away") (on_away self evt) ;;;
       when (startswith b "!back") (on_back self evt)) /\
  startswith b "!clear" && startswith b "!away" = false /\
  startswith b "!clear" && startswith b "!back" = false /\
  startswith b "!away" && startswith b "!back" = false /\
  _handle_management_command self evt w
    = (if startswith b "!clear" then on_clear self evt w
       else if startswith b "!away" then on_away self evt w
       else if startswith b "!back" then on_back self evt w
       else (w, inr tt)) /\
  value (_handle_management_command self evt) w = inr tt /\
  (if recognized b
   then exists content markdown,
          sent w' = sent w ++ [MkReply (room_id evt) (event_id evt)
                                 content markdown]
   else w' = w).
Proof.
  intros b w'. subst b w'.
  destruct (commands_exclusive (body evt)) as [Hc [Ha Hb]].
  split; [reflexivity|].
  split; [|split; [|split; [|split]]].
  - destruct (startswith (body evt) "!clear"); [|reflexivity].
    now destruct (Hc eq_refl) as [-> _].
  - destruct (startswith (body evt) "!clear"); [|reflexivity].
    now destruct (Hc eq_refl) as [_ ->].
  - destruct (startswith (body evt) "!away"); [|reflexivity].
    now destruct (Ha eq_refl) as [_ ->].
  - apply handle_management_command_eq.
  - unfold value, effect, recognized.
    rewrite handle_management_command_eq.
    destruct (startswith (body evt) "!clear");
      [rewrite on_clear_eq; simpl; split; [reflexivity | eauto]|].
    destruct (startswith (body evt) "!away");
      [rewrite on_away_eq; simpl; split; [reflexivity | eauto]|].
    destruct (startswith (body evt) "!back");
      [rewrite on_back_eq; simpl; split; [reflexivity | eauto]|].
    simpl. split; reflexivity.
Qed.

Lemma handle_message_management self evt :
  room_id evt = management_room self ->
  handle_message self evt = _handle_management_command self evt.
Proof.
  intros H. unfold handle_message. rewrite H, String.eqb_refl. reflexivity.
Qed.

Lemma handle_message_other self evt :
  room_id evt <> management_room self ->
  handle_message self evt = _auto_reply self evt.
Proof.
  intros H. unfold handle_message. apply String.eqb_neq in H. now rewrite H.
Qed.

Lemma missed_after_clear uid (t : list message_row) :
  map (fun row => (msg_room_id row, msg_event_id row))
    (filter (owner_row uid) (filter (fun r => negb (owner_row uid r)) t)) = [].
Proof. now rewrite filter_not_owner_none. Qed.

(** C3: a management-room message whose body starts with [!back] runs the
    [!back] branch alone.  It never raises; afterwards the store says not
    away; exactly one reply was sent, to the command event, whose content
    is the confirmation followed by the summary of the markers the store
    returned when the command arrived; the owner's markers are deleted
    (other rows are kept), so the list of missed messages is empty and no
    room has a marker of the owner. *)
Theorem back_command_reports_and_clears (self : AutoReplyBot)
    (evt : MessageEvent) (w : World) :
  room_id evt = management_room self ->
  startswith (body evt) "!back" = true ->
  let w' := effect (handle_message self evt) w in
  exists markers,
    value (Store.get_missed_messages (mxid self)) w = inr markers /\
    handle_message self evt w = on_back self evt w /\
    value (handle_message self evt) w = inr tt /\
    value (Store.is_away (mxid self)) w' = inr false /\
    sent w' = sent w ++
      [MkReply (room_id evt) (event_id evt)
         ("Your status has been updated. Welcome back!" ^^ nl ^^ nl
          ^^ summary_text markers)
         (Some true)] /\
    autoreply_messages (database w')
      = filter (fun r => negb (owner_row (mxid self) r))
          (autoreply_messages (database w)) /\
    value (Store.get_missed_messages (mxid self)) w' = inr [] /\
    (forall room,
       value (Store.get_message_id_in_room (mxid self) room) w' = inr None).
Proof.
  intros Hroom Hback w'.
  destruct (commands_exclusive (body evt)) as [_ [_ Hb]].
  destruct (Hb Hback) as [Hc Ha].
  assert (E : handle_message self evt w = on_back self evt w).
  { rewrite handle_message_management by assumption.
    now rewrite handle_management_command_eq, Hc, Ha, Hback. }
  assert (Hv : value (handle_message self evt) w = inr tt)
    by (unfold value; rewrite E, on_back_eq; reflexivity).
  eexists. split; [reflexivity|]. split; [exact E|]. split; [exact Hv|].
  subst w'. unfold effect. rewrite E, on_back_eq. cbn [fst sent database].
  repeat split.
  - unfold value, Store.is_away, bind, get_db. simpl.
    change (fun r => String.eqb (aw_user_id r) (mxid self))
      with (away_row_of (mxid self)).
    now rewrite fetchval_set_away.
  - unfold value. rewrite get_missed_messages_eq. simpl.
    now rewrite missed_after_clear.
  - intros room. unfold value. rewrite get_message_id_in_room_eq. simpl.
    now rewrite fetchval_cleared.
Qed.

Lemma back_command_reports_and_clears_witness :
  let evt := MkMessageEvent "@me:hs" "!mgmt:hs" "$cmd" "!back" in
  let w' := effect (handle_message me evt) missed_example in
  value (Store.is_away "@me:hs") w' = inr false /\
  sent w' =
    [MkReply "!mgmt:hs" "$cmd"
       ("Your status has been updated. Welcome back!" ^^ nl ^^ nl
        ^^ summary_text [("!dm:hs", "$first"); ("!bob:hs", "$hello")])
       (Some true)] /\
  value (Store.get_missed_messages "@me:hs") w' = inr [].
Proof.
  intros evt w'.
  destruct (back_command_reports_and_clears me evt missed_example
              eq_refl eq_refl)
    as [markers [Hm [_ [_ [Haway [Hsent [_ [Hmissed _]]]]]]]].
  injection Hm as <-.
  repeat split; assumption.
Defined.

(** C8: a management-room message whose body starts with [!clear] runs the
    [!clear] branch alone.  It never raises, deletes the owner's markers
    (the list of missed messages is then empty and no room has a marker of
    the owner), sends the one fixed confirmation, and leaves the away table
    and the management-room table as they were: [is_away] and
    [get_management_room] answer as before. *)
Theorem clear_command_keeps_away_state (self : AutoReplyBot)
    (evt : MessageEvent) (w : World) :
  room_id evt = management_room self ->
  startswith (body evt) "!clear" = true ->
  let w' := effect (handle_message self evt) w in
  handle_message self evt w = on_clear self evt w /\
  value (handle_message self evt) w = inr tt /\
  sent w' = sent w ++
    [MkReply (room_id evt) (event_id evt) "Cleared messages" None] /\
  autoreply_messages (database w')
    = filter (fun r => negb (owner_row (mxid self) r))
        (autoreply_messages (database w)) /\
  value (Store.get_missed_messages (mxid self)) w' = inr [] /\
  (forall room,
     value (Store.get_message_id_in_room (mxid self) room) w' = inr None) /\
  autoreply_user_away (database w') = autoreply_user_away (database w) /\
  autoreply_management_rooms (database w')
    = autoreply_management_rooms (database w) /\
  value (Store.is_away (mxid self)) w' = value (Store.is_away (mxid self)) w /\
  value (Store.get_management_room (mxid self)) w'
    = value (Store.get_management_room (mxid self)) w.
Proof.
  intros Hroom Hclear w'.
  assert (E : handle_message self evt w = on_clear self evt w).
  { rewrite handle_message_management by assumption.
    now rewrite handle_management_command_eq, Hclear. }
  assert (Hv : value (handle_message self evt) w = inr tt)
    by (unfold value; rewrite E, on_clear_eq; reflexivity).
  split; [exact E|]. split; [exact Hv|].
  subst w'. unfold effect. rewrite E, on_clear_eq. cbn [fst sent database].
  repeat split.
  - unfold value. rewrite get_missed_messages_eq. simpl.
    now rewrite missed_after_clear.
  - intros room. unfold value. rewrite get_message_id_in_room_eq. simpl.
    now rewrite fetchval_cleared.
  - unfold value, Store.is_away, bind, get_db. simpl.
    destruct (Sql.fetchval _ _ _); reflexivity.
Qed.

Lemma clear_command_keeps_away_state_witness :
  let evt := MkMessageEvent "@me:hs" "!mgmt:hs" "$cmd" "!clear please" in
  let w' := effect (handle_message me evt) missed_example in
  sent w' = [MkReply "!mgmt:hs" "$cmd" "Cleared messages" None] /\
  value (Store.get_missed_messages "@me:hs") w' = inr [] /\
  value (Store.is_away "@me:hs") w' = inr true /\
  value (Store.get_management_room "@me:hs") w' = inr (Some "!mgmt:hs").
Proof.
  intros evt w'.
  destruct (clear_command_keeps_away_state me evt missed_example
              eq_refl eq_refl)
    as [_ [_ [Hsent [_ [Hmissed [_ [_ [_ [Haway Hmgmt]]]]]]]]].
  repeat split; assumption.
Defined.

(** ** The auto-reply *)

Lemma scan_rooms_In (room : string) (rooms : list string) :
  scan_rooms room rooms = true <-> In room rooms.
Proof.
  induction rooms as [|x rooms IH]; simpl.
  - split; [discriminate | intros []].
  - destruct (String.eqb x room) eqn:E.
    + apply String.eqb_eq in E. split; auto.
    + apply String.eqb_neq in E. rewrite IH. split; [auto|].
      intros [H|H]; [contradiction | assumption].
Qed.

Lemma scan_items_listed (room : string) (data : list (string * list string)) :
  scan_items room data = true <-> listed_direct room data.
Proof.
  unfold listed_direct. induction data as [|[key rooms] data IH]; simpl.
  - split; [discriminate | intros [k [r [[] _]]]].
  - destruct (scan_rooms room rooms) eqn:E.
    + apply scan_rooms_In in E. split; [|reflexivity].
      intros _. exists key, rooms. auto.
    + rewrite IH. split.
      * intros [k [r [Hin Hr]]]. exists k, r. auto.
      * intros [k [r [[Heq|Hin] Hr]]]; [|exists k, r; auto].
        injection Heq as <- <-. apply scan_rooms_In in Hr. congruence.
Qed.

Lemma is_away_eq uid w :
  Store.is_away uid w =
  (w, inr match Sql.fetchval aw_is_away (away_row_of uid)
                  (autoreply_user_away (database w)) with
          | Some b => b
          | None => false
          end).
Proof.
  unfold Store.is_away, bind, get_db, ret, away_row_of.
  destruct (Sql.fetchval _ _ _); reflexivity.
Qed.

(** The handler either stops at one of the three tests made before the
    lookup, or goes on with the lookup and what follows it. *)
Lemma auto_reply_cases self evt w :
  (reaches_lookup self evt w /\
   _auto_reply self evt w =
     match m_direct self with
     | inl e => (w, inl e)
     | inr data =>
         if scan_items (room_id evt) data
         then (reply evt (config_message self) None ;;;
               Store.store_message (mxid self) (event_id evt) (room_id evt)) w
         else (w, inr tt)
     end)
  \/ (~ reaches_lookup self evt w /\ _auto_reply self evt w = (w, inr tt)).
Proof.
  unfold reaches_lookup, value, _auto_reply, and_then, _is_direct,
    Store.is_away, Store.get_message_id_in_room, when, bind, ret, raise,
    get_db.
  cbn [fst snd].
  destruct (String.eqb (sender evt) (mxid self)) eqn:Es; cbn [negb].
  - right. apply String.eqb_eq in Es. split; [tauto | reflexivity].
  - apply String.eqb_neq in Es.
    destruct (Sql.fetchval aw_is_away _ _) as [[|]|];
      try (right; split; [intros [_ [H _]]; discriminate | reflexivity]).
    destruct (Sql.fetchval msg_event_id _ _) as [marker|]; cbn [is_None].
    + right. split; [intros [_ [_ H]]; discriminate | reflexivity].
    + left. split; [auto|].
      destruct (m_direct self) as [e|data]; [reflexivity|].
      destruct (scan_items (room_id evt) data); reflexivity.
Qed.

Lemma app_one_neq (A : Type) (l : list A) (x : A) : l ++ [x] <> l.
Proof.
  intros H. apply (f_equal (@length A)) in H. rewrite length_app in H.
  simpl in H. lia.
Qed.

(** Sending the reply and storing the marker, when no row holds the room. *)
Lemma reply_then_store self evt w :
  Sql.has_key msg_room_id (room_id evt) (autoreply_messages (database w))
    = false ->
  (reply evt (config_message self) None ;;;
   Store.store_message (mxid self) (event_id evt) (room_id evt)) w
  = (replied_and_marked self evt w, inr tt).
Proof.
  intros H. unfold bind, reply. rewrite store_message_eq. simpl.
  now rewrite H.
Qed.

(** With no marker of the owner in the room and no other owner's row on
    it, no row holds the room. *)
Lemma room_free uid room (db : Database) :
  room_owned uid room db ->
  Sql.fetchval msg_event_id (fun r => in_room room r && owner_row uid r)
    (autoreply_messages db) = None ->
  Sql.has_key msg_room_id room (autoreply_messages db) = false.
Proof.
  intros Howned Hnone. apply has_key_false. intros r Hr Hroom.
  rewrite fetchval_None in Hnone. specialize (Hnone r Hr).
  unfold in_room, owner_row in Hnone.
  rewrite Hroom, (Howned r Hr Hroom), !String.eqb_refl in Hnone.
  discriminate.
Qed.

Lemma replied_and_marked_reads_marker self evt w :
  value (Store.get_message_id_in_room (mxid self) (room_id evt)) w = inr None ->
  value (Store.get_message_id_in_room (mxid self) (room_id evt))
    (replied_and_marked self evt w) = inr (Some (event_id evt)).
Proof.
  unfold value. rewrite !get_message_id_in_room_eq. simpl.
  intros [= H]. now rewrite fetchval_appended.
Qed.

Lemma criteria_reply_and_mark self evt w :
  room_owned (mxid self) (room_id evt) (database w) ->
  criteria self evt w ->
  _auto_reply self evt w = (replied_and_marked self evt w, inr tt).
Proof.
  intros Howned [Hreach [data [Hdata Hlisted]]].
  destruct (auto_reply_cases self evt w) as [[_ E]|[Hstop _]];
    [|contradiction].
  rewrite E, Hdata. apply scan_items_listed in Hlisted. rewrite Hlisted.
  apply reply_then_store. apply room_free with (uid := mxid self);
    [assumption|].
  destruct Hreach as [_ [_ Hnone]]. unfold value in Hnone.
  rewrite get_message_id_in_room_eq in Hnone. simpl in Hnone. congruence.
Qed.

(** C1, as stated, fails: the owner is away, the room has no marker and
    the sender is someone else, but the account-data request fails, so the
    room is found in no mapping.  The handler does not return normally: the
    exception of the request leaves it. *)
Lemma auto_reply_as_stated_counterexample :
  ~ auto_reply_as_stated me_lookup_failing first_message away_world.
Proof.
  intros H. destruct H as [[_ H]|[_ H]]; try discriminate H.
  simpl. discriminate.
Qed.

(** C1, amended: a message outside the management room goes to the
    auto-reply handler.  Provided no other owner's row occupies the room,
    the handler sends the configured text as a reply to the message and
    then stores the marker [(room_id, event_id)] of that message, returning
    normally, exactly when the four criteria hold: the sender is not the
    bot, the store says away, the store has no marker for the room, and the
    account-data lookup returns a mapping that lists the room.  When a
    criterion fails no reply is sent and nothing is written; the handler
    then returns normally, except when the first three criteria hold and
    the lookup itself fails: the exception of the lookup is propagated. *)
Theorem auto_reply_iff_criteria (self : AutoReplyBot) (evt : MessageEvent)
    (w : World) :
  room_id evt <> management_room self ->
  room_owned (mxid self) (room_id evt) (database w) ->
  (handle_message self evt w = (replied_and_marked self evt w, inr tt)
     <-> criteria self evt w) /\
  (criteria self evt w ->
     handle_message self evt w
       = (reply evt (config_message self) None ;;;
          Store.store_message (mxid self) (event_id evt) (room_id evt)) w /\
     value (Store.get_message_id_in_room (mxid self) (room_id evt))
       (replied_and_marked self evt w) = inr (Some (event_id evt))) /\
  (~ criteria self evt w ->
     effect (handle_message self evt) w = w /\
     (forall e, reaches_lookup self evt w -> m_direct self = inl e ->
        value (handle_message self evt) w = inl e) /\
     (~ (reaches_lookup self evt w /\ exists e, m_direct self = inl e) ->
        value (handle_message self evt) w = inr tt)).
Proof.
  intros Hroom Howned.
  rewrite handle_message_other by assumption.
  assert (Hno : replied_and_marked self evt w <> w).
  { intros H. apply (f_equal sent) in H. simpl in H.
    now apply app_one_neq in H. }
  unfold criteria, effect, value.
  destruct (auto_reply_cases self evt w) as [[Hreach E]|[Hstop E]];
    rewrite E; clear E.
  - destruct (m_direct self) as [e|data] eqn:Hdata.
    + split; [|split].
      * split; [discriminate | intros [_ [d [Hd _]]]; discriminate].
      * intros [_ [d [Hd _]]]. discriminate.
      * intros _. split; [reflexivity|]. split.
        -- intros e' _ [= <-]. reflexivity.
        -- intros Hn. exfalso. apply Hn. split; [assumption|].
           now exists e.
    + destruct (scan_items (room_id evt) data) eqn:Hscan.
      * assert (Hlisted : listed_direct (room_id evt) data)
          by now apply scan_items_listed.
        assert (Hfree : Sql.has_key msg_room_id (room_id evt)
                          (autoreply_messages (database w)) = false).
        { apply room_free with (uid := mxid self); [assumption|].
          destruct Hreach as [_ [_ Hnone]]. unfold value in Hnone.
          rewrite get_message_id_in_room_eq in Hnone. simpl in Hnone.
          congruence. }
        assert (Hcrit : reaches_lookup self evt w /\
                  exists d, @inr Exception _ data = inr d
                            /\ listed_direct (room_id evt) d)
          by (split; [assumption | now exists data]).
        rewrite reply_then_store by assumption.
        split; [tauto|]. split; [|tauto].
        intros _. split; [reflexivity|].
        apply replied_and_marked_reads_marker. apply Hreach.
      * assert (Hnot : ~ (reaches_lookup self evt w /\
                  exists d, @inr Exception _ data = inr d
                            /\ listed_direct (room_id evt) d)).
        { intros [_ [d [[= <-] H]]]. apply scan_items_listed in H.
          congruence. }
        split; [|split; [tauto|]].
        -- split; [|tauto]. intros [= H]. now symmetry in H.
        -- intros _. split; [reflexivity|]. split; [discriminate|reflexivity].
  - split; [|split; [tauto|]].
    + split; [|tauto]. intros [= H]. now symmetry in H.
    + intros _. split; [reflexivity|]. split; [tauto|reflexivity].
Qed.

Lemma auto_reply_iff_criteria_witness :
  handle_message me first_message away_world
  = (MkWorld (MkDatabase [MkManagementRow "@me:hs" "!mgmt:hs"]
                [MkMessageRow "!dm:hs" "$first" "@me:hs"]
                [MkAwayRow "@me:hs" true])
             [MkReply "!dm:hs" "$first" "I am away, I will answer later."
                None],
     inr tt).
Proof.
  assert (Hroom : room_id first_message <> management_room me)
    by (simpl; discriminate).
  assert (Howned : room_owned (mxid me) (room_id first_message)
                     (database away_world))
    by (intros row []).
  destruct (@auto_reply_iff_criteria me first_message away_world
              Hroom Howned) as [[_ Hiff] _].
  apply Hiff. repeat split; try reflexivity.
  - simpl. discriminate.
  - eexists. split; [reflexivity|].
    exists "@alice:hs", ["!dm:hs"]. simpl. auto.
Defined.

(** C4, as stated, fails: with the owner away and no marker in the room, a
    message from someone else makes the handler ask for the account data,
    and the exception of the failed request leaves the handler. *)
Lemma lookup_failure_swallowed_counterexample :
  ~ lookup_failure_swallowed me_lookup_failing first_message away_world.
Proof.
  intros H. destruct H as [_ H]; [now exists MatrixRequestError|].
  discriminate H.
Qed.

(** C4, amended: when the account-data lookup fails, [_is_direct] raises the
    failure instead of answering "not direct".  The auto-reply handler
    sends no reply and writes nothing, and the failure leaves the handler
    whenever the lookup is reached, that is when the sender is not the bot,
    the store says away and the store has no marker for the room; otherwise
    the lookup is not made and the handler returns normally. *)
Theorem lookup_failure_propagates (self : AutoReplyBot) (evt : MessageEvent)
    (w : World) (e : Exception) :
  m_direct self = inl e ->
  _is_direct self (room_id evt) w = (w, inl e) /\
  effect (_auto_reply self evt) w = w /\
  (reaches_lookup self evt w -> value (_auto_reply self evt) w = inl e) /\
  (~ reaches_lookup self evt w -> value (_auto_reply self evt) w = inr tt).
Proof.
  intros He. split.
  - unfold _is_direct. now rewrite He.
  - unfold effect, value.
    destruct (auto_reply_cases self evt w) as [[Hreach E]|[Hstop E]];
      rewrite E; clear E.
    + rewrite He. simpl. repeat split; tauto.
    + simpl. repeat split; tauto.
Qed.

Lemma lookup_failure_propagates_witness :
  _auto_reply me_lookup_failing first_message away_world
  = (away_world, inl MatrixRequestError).
Proof.
  destruct (@lookup_failure_propagates me_lookup_failing first_message
              away_world MatrixRequestError eq_refl)
    as [_ [Hw [Hraise _]]].
  rewrite (surjective_pairing
             (_auto_reply me_lookup_failing first_message away_world)).
  unfold effect in Hw. unfold value in Hraise.
  rewrite Hw, Hraise; [reflexivity|].
  repeat split. simpl. discriminate.
Defined.

(** ** Several messages in one room *)

Lemma handle_all_fixed self (evts : list MessageEvent) (w : World) :
  Forall (fun evt => handle_message self evt w = (w, inr tt)) evts ->
  handle_all self evts w = w.
Proof.
  induction 1 as [|evt evts Hevt _ IH]; simpl; [reflexivity|].
  unfold effect. now rewrite Hevt.
Qed.

(** X22: the owner is away, the room is listed as direct, no row of any
    owner holds the room, and [first :: later] are messages of that room
    not sent by the bot, handled one after the other (no command in
    between).  Then the
    first message is answered once and its marker stored; the table ends
    with exactly one row for the room, which carries the event id of the
    first message; every later message is handled without reply, without
    write and without exception, so the world after the whole sequence is
    the world after the first message. *)
Theorem first_message_keeps_marker (self : AutoReplyBot)
    (data : list (string * list string)) (room : string)
    (first : MessageEvent) (later : list MessageEvent) (w : World) :
  m_direct self = inr data ->
  listed_direct room data ->
  room <> management_room self ->
  Forall (fun evt => sender evt <> mxid self /\ room_id evt = room)
    (first :: later) ->
  value (Store.is_away (mxid self)) w = inr true ->
  (forall row, In row (autoreply_messages (database w)) ->
     msg_room_id row <> room) ->
  let w1 := effect (handle_message self first) w in
  value (handle_message self first) w = inr tt /\
  sent w1 = sent w ++
    [MkReply room (event_id first) (config_message self) None] /\
  autoreply_messages (database w1)
    = autoreply_messages (database w)
        ++ [MkMessageRow room (event_id first) (mxid self)] /\
  Sql.count (in_room room) (autoreply_messages (database w1)) = 1 /\
  value (Store.get_message_id_in_room (mxid self) room) w1
    = inr (Some (event_id first)) /\
  Forall (fun evt => handle_message self evt w1 = (w1, inr tt)) later /\
  handle_all self (first :: later) w = w1.
Proof.
  intros Hdata Hlisted Hmgmt Hall Haway Hfree w1.
  inversion Hall as [|? ? [Hsender Hroom] Hlater]; subst.
  assert (Hnone : value (Store.get_message_id_in_room (mxid self)
                           (room_id first)) w = inr None).
  { unfold value. rewrite get_message_id_in_room_eq. simpl. f_equal.
    apply fetchval_None. intros r Hr. unfold in_room.
    specialize (Hfree r Hr). apply String.eqb_neq in Hfree.
    now rewrite Hfree. }
  assert (Howned : room_owned (mxid self) (room_id first) (database w)).
  { intros r Hr Heq. now apply Hfree in Hr. }
  assert (Hcrit : criteria self first w).
  { split; [repeat split; assumption|]. now exists data. }
  assert (Hiff : handle_message self first w
                 = (replied_and_marked self first w, inr tt)).
  { rewrite handle_message_other by assumption.
    now apply criteria_reply_and_mark. }
  pose proof (@replied_and_marked_reads_marker self first w Hnone) as Hmarker.
  assert (Ew : w1 = replied_and_marked self first w)
    by (unfold w1, effect; now rewrite Hiff).
  assert (Hquiet : Forall (fun evt => handle_message self evt w1 = (w1, inr tt))
                     later).
  { rewrite Ew. apply Forall_forall. intros evt Hevt.
    rewrite Forall_forall in Hlater. destruct (Hlater evt Hevt) as [_ Hr].
    rewrite handle_message_other by (rewrite Hr; assumption).
    destruct (auto_reply_cases self evt (replied_and_marked self first w))
      as [[[_ [_ Hn]] _]|[_ E]]; [|exact E].
    rewrite Hr, Hmarker in Hn. discriminate. }
  repeat split.
  - unfold value. now rewrite Hiff.
  - now rewrite Ew.
  - now rewrite Ew.
  - rewrite Ew. simpl. unfold Sql.count. rewrite filter_app, length_app.
    assert (E0 : filter (in_room (room_id first))
                   (autoreply_messages (database w)) = []).
    { clear - Hfree. induction (autoreply_messages (database w)) as [|x t IH];
        simpl; [reflexivity|].
      assert (Hx : in_room (room_id first) x = false)
        by (apply String.eqb_neq, Hfree; now left).
      rewrite Hx. apply IH. intros r Hr. apply Hfree. now right. }
    rewrite E0. simpl. unfold in_room. simpl. now rewrite String.eqb_refl.
  - now rewrite Ew.
  - exact Hquiet.
  - simpl. fold w1. now apply handle_all_fixed.
Qed.

Lemma first_message_keeps_marker_witness :
  let later := [MkMessageEvent "@alice:hs" "!dm:hs" "$second" "hello?";
                MkMessageEvent "@alice:hs" "!dm:hs" "$third" "ping"] in
  let w' := handle_all me (first_message :: later) away_world in
  sent w' = [MkReply "!dm:hs" "$first" "I am away, I will answer later."
               None] /\
  autoreply_messages (database w')
    = [MkMessageRow "!dm:hs" "$first" "@me:hs"].
Proof.
  intros later w'.
  assert (Hlisted : listed_direct "!dm:hs"
            [("@alice:hs", ["!dm:hs"]); ("@bob:hs", ["!old:hs"; "!bob:hs"])])
    by (exists "@alice:hs", ["!dm:hs"]; simpl; auto).
  assert (Hmgmt : "!dm:hs" <> management_room me) by (simpl; discriminate).
  assert (Hall : Forall (fun evt => sender evt <> mxid me
                                    /\ room_id evt = "!dm:hs")
                   (first_message :: later))
    by (repeat constructor; simpl; discriminate).
  assert (Hfree : forall row,
            In row (autoreply_messages (database away_world)) ->
            msg_room_id row <> "!dm:hs") by (intros row []).
  destruct (@first_message_keeps_marker me _ "!dm:hs" first_message later
              away_world eq_refl Hlisted Hmgmt Hall eq_refl Hfree)
    as [_ [Hsent [Hrows [_ [_ [_ Hseq]]]]]].
  unfold w'. rewrite Hseq. split; assumption.
Defined.

(** C2, at the failing input: the owner is away, the room is listed as
    direct and not the management room, and two messages of someone else
    arrive in it, with no command in between; the table holds a row for the
    room under another user.  The test [get_message_id_in_room] reads the
    owner's rows only, while the key of the table is [room_id] alone: both
    messages are answered, both inserts are refused, and the owner has no
    marker for the room.  The claim asks for one marker with the first
    event id and for no reply to the second message. *)
Lemma second_message_answered_with_foreign_row :
  let second := MkMessageEvent "@alice:hs" "!dm:hs" "$second" "hello?" in
  let w1 := effect (handle_message me first_message) foreign_marker_example in
  let w2 := handle_all me [first_message; second] foreign_marker_example in
  value (Store.is_away (mxid me)) foreign_marker_example = inr true /\
  value (_is_direct me "!dm:hs") foreign_marker_example = inr true /\
  handle_message me second w1
    = (MkWorld (database foreign_marker_example)
         [auto_reply_to me first_message; auto_reply_to me second],
       inl IntegrityError) /\
  sent w2 = [auto_reply_to me first_message; auto_reply_to me second] /\
  value (Store.get_message_id_in_room (mxid me) "!dm:hs") w2 = inr None /\
  value (Store.get_missed_messages (mxid me)) w2 = inr [].
Proof.
  intros second w1 w2. subst second w1 w2.
  repeat split; vm_compute; reflexivity.
Qed.

(** ** Invariants of the handlers

    The key constraints of the schema, and the ownership of the markers,
    hold after [schema_v1] and are kept by every handled message. *)

Lemma auto_reply_database self evt w :
  database (effect (_auto_reply self evt) w) = database w \/
  (Sql.has_key msg_room_id (room_id evt) (autoreply_messages (database w))
     = false /\
   database (effect (_auto_reply self evt) w)
     = Store.with_messages (database w)
         (autoreply_messages (database w)
            ++ [MkMessageRow (room_id evt) (event_id evt) (mxid self)])).
Proof.
  unfold effect.
  destruct (auto_reply_cases self evt w) as [[_ E]|[_ E]]; rewrite E;
    [|now left].
  destruct (m_direct self) as [e|data]; [now left|].
  destruct (scan_items (room_id evt) data); [|now left].
  unfold bind, reply. rewrite store_message_eq. simpl.
  destruct (Sql.has_key msg_room_id (room_id evt)
              (autoreply_messages (database w))) eqn:Hk; [now left|].
  right. split; reflexivity.
Qed.

Lemma management_command_database self evt w :
  let db := database w in
  let db' := database (effect (_handle_management_command self evt) w) in
  let kept := filter (fun r => negb (owner_row (mxid self) r))
                (autoreply_messages db) in
  autoreply_management_rooms db' = autoreply_management_rooms db /\
  (autoreply_messages db' = autoreply_messages db
   \/ autoreply_messages db' = kept) /\
  (autoreply_user_away db' = autoreply_user_away db
   \/ exists b, autoreply_user_away db'
                = set_away (mxid self) b (autoreply_user_away db)).
Proof.
  intros db db' kept. subst db db' kept.
  unfold effect. rewrite handle_management_command_eq.
  destruct (startswith (body evt) "!clear").
  { rewrite on_clear_eq. simpl. split; [reflexivity|]. split; [now right | now left]. }
  destruct (startswith (body evt) "!away").
  { rewrite on_away_eq. simpl. split; [reflexivity|]. split; [now left|].
    right. now exists true. }
  destruct (startswith (body evt) "!back").
  { rewrite on_back_eq. simpl. split; [reflexivity|]. split; [now right|].
    right. now exists false. }
  simpl. split; [reflexivity|]. split; now left.
Qed.

Lemma schema_v1_invariants (uid : string) :
  constraints schema_v1 /\ markers_owned uid schema_v1.
Proof.
  split.
  - unfold constraints, Sql.pk_ok. simpl. repeat split; constructor.
  - intros row [].
Qed.

Lemma handle_message_constraints self evt w :
  constraints (database w) ->
  constraints (database (effect (handle_message self evt) w)).
Proof.
  unfold constraints. intros [Hm [Hr Ha]]. unfold handle_message.
  destruct (String.eqb (room_id evt) (management_room self)).
  - destruct (management_command_database self evt w) as [E1 [E2 E3]].
    rewrite E1. split; [assumption|]. split.
    + destruct E2 as [-> | ->]; [assumption | now apply filter_pk_ok].
    + destruct E3 as [-> | [b ->]]; [assumption | now apply set_away_pk_ok].
  - destruct (auto_reply_database self evt w) as [-> | [Hk ->]];
      [tauto|]. simpl. split; [assumption|]. split; [|assumption].
    apply insert_pk_ok
      with (r := MkMessageRow (room_id evt) (event_id evt) (mxid self))
           (t := autoreply_messages (database w)); [assumption|].
    unfold Sql.insert. simpl. now rewrite Hk.
Qed.

Lemma handle_message_markers_owned self evt w :
  markers_owned (mxid self) (database w) ->
  markers_owned (mxid self) (database (effect (handle_message self evt) w)).
Proof.
  unfold markers_owned. intros Hown. unfold handle_message.
  destruct (String.eqb (room_id evt) (management_room self)).
  - destruct (management_command_database self evt w) as [_ [[-> | ->] _]];
      [assumption|].
    intros row Hrow. apply filter_In in Hrow. now apply Hown.
  - destruct (auto_reply_database self evt w) as [-> | [_ ->]];
      [assumption|]. simpl. intros row Hrow.
    apply in_app_or in Hrow. destruct Hrow as [Hrow | [<- | []]];
      [now apply Hown | reflexivity].
Qed.

Lemma handle_all_markers_owned self (evts : list MessageEvent) (w : World) :
  markers_owned (mxid self) (database w) ->
  markers_owned (mxid self) (database (handle_all self evts w)).
Proof.
  revert w. induction evts as [|evt evts IH]; intros w Hown; simpl;
    [assumption|].
  apply IH. now apply handle_message_markers_owned.
Qed.

Lemma markers_owned_room_owned uid room db :
  markers_owned uid db -> room_owned uid room db.
Proof. intros H row Hrow _. now apply H. Qed.

(** * Further properties of the store *)

Unset Implicit Arguments.

Section FetchLemmas.
Variable Row : Type.
Variable pk : Row -> string.

Lemma fetchval_Some (A : Type) (col : Row -> A) p (t : list Row) a :
  Sql.fetchval col p t = Some a ->
  exists r, In r t /\ p r = true /\ col r = a.
Proof using Type.
  clear pk. unfold Sql.fetchval, Sql.fetch.
  destruct (filter p t) as [|r l] eqn:E; [discriminate|].
  intros [= <-]. exists r.
  assert (Hin : In r (filter p t)) by (rewrite E; now left).
  apply filter_In in Hin. destruct Hin as [Hin Hp].
  split; [exact Hin|]. split; [exact Hp | reflexivity].
Qed.

Lemma fetchval_app_skip (A : Type) (col : Row -> A) p (t : list Row) r :
  p r = false -> Sql.fetchval col p (t ++ [r]) = Sql.fetchval col p t.
Proof.
  intros H. unfold Sql.fetchval, Sql.fetch. rewrite filter_app. simpl.
  now rewrite H, app_nil_r.
Qed.

Lemma fetchval_app_new (A : Type) (col : Row -> A) p (t : list Row) r :
  Sql.fetchval col p t = None -> p r = true ->
  Sql.fetchval col p (t ++ [r]) = Some (col r).
Proof.
  intros Hnone Hp. unfold Sql.fetchval, Sql.fetch in *. rewrite filter_app.
  destruct (filter p t); [|discriminate]. simpl. now rewrite Hp.
Qed.

Lemma fetchval_map (A : Type) (col : Row -> A) p f (t : list Row) :
  (forall r, p (f r) = p r) ->
  (forall r, p r = true -> col (f r) = col r) ->
  Sql.fetchval col p (map f t) = Sql.fetchval col p t.
Proof.
  intros Hp Hcol. unfold Sql.fetchval, Sql.fetch.
  induction t as [|x t IH]; simpl; [reflexivity|].
  rewrite Hp. destruct (p x) eqn:E; [|assumption].
  f_equal. now apply Hcol.
Qed.

(** Under the key constraint, a row whose key is fixed by the selection is
    the row the selection reads. *)
Lemma fetchval_unique (A : Type) (col : Row -> A) p r (t : list Row) :
  Sql.pk_ok pk t -> In r t -> p r = true ->
  (forall x, p x = true -> pk x = pk r) ->
  Sql.fetchval col p t = Some (col r).
Proof.
  unfold Sql.pk_ok, Sql.fetchval, Sql.fetch.
  induction t as [|x t IH]; simpl; [intros _ []|].
  intros Hnd Hin Hp Hkey. inversion Hnd as [|? ? Hx Ht]; subst.
  destruct Hin as [->|Hin]; [now rewrite Hp|].
  destruct (p x) eqn:E; [|now apply IH].
  exfalso. apply Hx. rewrite (Hkey x E). now apply in_map.
Qed.

Lemma filter_filter_other (p q : Row -> bool) (t : list Row) :
  (forall r, p r = true -> q r = false) ->
  filter p (filter (fun r => negb (q r)) t) = filter p t.
Proof.
  intros H. induction t as [|x t IH]; simpl; [reflexivity|].
  destruct (q x) eqn:Eq; simpl.
  - destruct (p x) eqn:Ep; [|assumption].
    rewrite (H x Ep) in Eq. discriminate.
  - now rewrite IH.
Qed.
End FetchLemmas.

Lemma get_management_room_eq uid w :
  Store.get_management_room uid w =
  (w, inr (Sql.fetchval mr_room_id
             (fun r => String.eqb (mr_user_id r) uid)
             (autoreply_management_rooms (database w)))).
Proof. reflexivity. Qed.

Lemma store_management_room_eq uid room w :
  Store.store_management_room uid room w =
  if Sql.has_key mr_user_id uid (autoreply_management_rooms (database w))
  then (w, inl IntegrityError)
  else (MkWorld (Store.with_management_rooms (database w)
                   (autoreply_management_rooms (database w)
                      ++ [MkManagementRow uid room])) (sent w),
        inr tt).
Proof.
  unfold Store.store_management_room, bind, get_db, raise, set_db,
    Sql.insert. simpl.
  destruct (Sql.has_key mr_user_id uid
              (autoreply_management_rooms (database w))); reflexivity.
Qed.

Lemma no_binding_no_key uid w :
  value (Store.get_management_room uid) w = inr None ->
  Sql.has_key mr_user_id uid (autoreply_management_rooms (database w)) = false.
Proof.
  unfold value. rewrite get_management_room_eq. simpl. intros [= H].
  apply has_key_false. intros r Hr Hk.
  rewrite fetchval_None in H. specialize (H r Hr). simpl in H.
  rewrite Hk, String.eqb_refl in H. discriminate.
Qed.

(** X1: when the owner has no management room yet,
    [store_management_room] succeeds and [get_management_room] then returns
    the room stored; the rooms of the other users, the markers, the away
    flags and the replies sent are as before. *)
Theorem management_room_round_trip (uid room : string) (w : World) :
  value (Store.get_management_room uid) w = inr None ->
  let w' := effect (Store.store_management_room uid room) w in
  value (Store.store_management_room uid room) w = inr tt /\
  value (Store.get_management_room uid) w' = inr (Some room) /\
  (forall other, other <> uid ->
     value (Store.get_management_room other) w'
       = value (Store.get_management_room other) w) /\
  autoreply_messages (database w') = autoreply_messages (database w) /\
  autoreply_user_away (database w') = autoreply_user_away (database w) /\
  sent w' = sent w.
Proof.
  intros Hnone w'. pose proof (no_binding_no_key uid w Hnone) as Hk.
  subst w'. unfold effect, value in *.
  rewrite store_management_room_eq, Hk. cbn [fst snd].
  rewrite get_management_room_eq in Hnone. simpl in Hnone.
  injection Hnone as Hnone.
  repeat split.
  - rewrite get_management_room_eq. simpl. f_equal.
    apply fetchval_app_new; [exact Hnone|].
    simpl. apply String.eqb_refl.
  - intros other Hother. rewrite !get_management_room_eq. simpl. f_equal.
    apply fetchval_app_skip. simpl. apply String.eqb_neq. congruence.
Qed.

Lemma management_room_round_trip_witness :
  value (Store.get_management_room "@me:hs")
    (effect (Store.store_management_room "@me:hs" "!mgmt:hs")
       (MkWorld schema_v1 []))
  = inr (Some "!mgmt:hs").
Proof.
  destruct (management_room_round_trip "@me:hs" "!mgmt:hs"
              (MkWorld schema_v1 []) eq_refl) as [_ [H _]].
  exact H.
Defined.

(** X2: the management room is set once.  When the owner already has one,
    [store_management_room] raises the constraint violation, whatever the
    room given, and the world, the stored room included, is untouched. *)
Theorem management_room_set_once (uid room room' : string) (w : World) :
  value (Store.get_management_room uid) w = inr (Some room) ->
  Store.store_management_room uid room' w = (w, inl IntegrityError) /\
  value (Store.get_management_room uid)
    (effect (Store.store_management_room uid room') w) = inr (Some room).
Proof.
  intros Hsome.
  assert (E : Store.store_management_room uid room' w
              = (w, inl IntegrityError)).
  { rewrite store_management_room_eq.
    unfold value in Hsome. rewrite get_management_room_eq in Hsome.
    simpl in Hsome. injection Hsome as Hsome.
    apply fetchval_Some in Hsome. destruct Hsome as [r [Hr [Hk _]]].
    assert (Hkey : Sql.has_key mr_user_id uid
                     (autoreply_management_rooms (database w)) = true).
    { apply has_key_true. exists r. split; [assumption|].
      now apply String.eqb_eq. }
    now rewrite Hkey. }
  split; [exact E|]. unfold effect. now rewrite E.
Qed.

Lemma management_room_set_once_witness :
  Store.store_management_room "@me:hs" "!other:hs" missed_example
  = (missed_example, inl IntegrityError).
Proof.
  apply (management_room_set_once "@me:hs" "!mgmt:hs" "!other:hs"
           missed_example eq_refl).
Defined.

Lemma fetchval_set_away_other (a b : string) (flag : bool)
    (t : list away_row) :
  a <> b ->
  Sql.fetchval aw_is_away (away_row_of b) (set_away a flag t)
  = Sql.fetchval aw_is_away (away_row_of b) t.
Proof.
  intros Hab. rewrite set_away_eq.
  destruct (Sql.has_key aw_user_id a t).
  - apply fetchval_map; intros r; unfold away_row_of, rewrite_row;
      destruct (String.eqb (aw_user_id r) a) eqn:E; simpl; try reflexivity.
    apply String.eqb_eq in E. intros Hb. apply String.eqb_eq in Hb.
    congruence.
  - apply fetchval_app_skip. unfold away_row_of. simpl.
    now apply String.eqb_neq.
Qed.

Lemma same_answers_tables (uid : string) (w w' : World) :
  Sql.fetchval aw_is_away (away_row_of uid)
    (autoreply_user_away (database w'))
  = Sql.fetchval aw_is_away (away_row_of uid)
      (autoreply_user_away (database w)) ->
  autoreply_management_rooms (database w')
  = autoreply_management_rooms (database w) ->
  filter (owner_row uid) (autoreply_messages (database w'))
  = filter (owner_row uid) (autoreply_messages (database w)) ->
  same_answers uid w w'.
Proof.
  intros Ha Hm Hf. unfold same_answers, value.
  rewrite !is_away_eq, !get_management_room_eq, !get_missed_messages_eq.
  cbn [snd]. rewrite Ha, Hm, Hf. repeat split.
  intros room. rewrite !get_message_id_in_room_eq. cbn [snd]. f_equal.
  unfold Sql.fetchval, Sql.fetch.
  assert (E : forall t,
            filter (fun r => in_room room r && owner_row uid r) t
            = filter (in_room room) (filter (owner_row uid) t)).
  { induction t as [|x t IH]; simpl; [reflexivity|].
    destruct (owner_row uid x); simpl.
    - rewrite andb_true_r. destruct (in_room room x); now rewrite IH.
    - now rewrite andb_false_r. }
  now rewrite !E, Hf.
Qed.

Lemma filter_owner_app_other (a b : string) (room event : string)
    (t : list message_row) :
  a <> b ->
  filter (owner_row b) (t ++ [MkMessageRow room event a])
  = filter (owner_row b) t.
Proof.
  intros Hab. rewrite filter_app. simpl. unfold owner_row at 2. simpl.
  apply String.eqb_neq in Hab. rewrite Hab. apply app_nil_r.
Qed.

(** X3: the writes of one user leave the answers of every other user as
    they were.  After [clear_messages], [update_away_state],
    [store_message] or [store_management_room] run for [a], the four
    queries run for another user [b] return what they returned before:
    away flag, management room, list of missed messages, marker of any
    room. *)
Theorem writes_leave_other_users (a b : string) (w : World) :
  a <> b ->
  same_answers b w (effect (Store.clear_messages a) w) /\
  (forall flag,
     same_answers b w (effect (Store.update_away_state a flag) w)) /\
  (forall event room,
     same_answers b w (effect (Store.store_message a event room) w)) /\
  (forall room,
     same_answers b w (effect (Store.store_management_room a room) w)).
Proof.
  intros Hab. split; [|split; [|split]].
  - unfold effect. rewrite clear_messages_eq. cbn [fst].
    apply same_answers_tables; simpl; try reflexivity.
    apply filter_filter_other. intros r Hb. unfold owner_row in *.
    apply String.eqb_eq in Hb. apply String.eqb_neq. congruence.
  - intros flag. unfold effect. rewrite update_away_state_eq. cbn [fst].
    apply same_answers_tables; simpl; try reflexivity.
    now apply fetchval_set_away_other.
  - intros event room. unfold effect. rewrite store_message_eq.
    destruct (Sql.has_key msg_room_id room (autoreply_messages (database w)));
      cbn [fst]; apply same_answers_tables; simpl; try reflexivity.
    now apply filter_owner_app_other.
  - intros room. unfold effect. rewrite store_management_room_eq.
    destruct (Sql.has_key mr_user_id a
                (autoreply_management_rooms (database w))); cbn [fst].
    + apply same_answers_tables; reflexivity.
    + unfold same_answers, value.
      rewrite !is_away_eq, !get_management_room_eq, !get_missed_messages_eq.
      cbn [snd]. simpl. repeat split. f_equal.
      apply fetchval_app_skip. simpl. now apply String.eqb_neq.
Qed.

Lemma writes_leave_other_users_witness :
  value (Store.get_missed_messages "@me:hs")
    (effect (Store.clear_messages "@other:hs") missed_example)
  = inr [("!dm:hs", "$first"); ("!bob:hs", "$hello")].
Proof.
  assert (Hne : "@other:hs" <> "@me:hs") by discriminate.
  destruct (writes_leave_other_users "@other:hs" "@me:hs" missed_example Hne)
    as [[_ [_ [H _]]] _].
  rewrite H. reflexivity.
Defined.

(** X4: under the key constraint of the missed-messages table the two
    reads of the markers agree: [(room, event)] is in the list
    [get_missed_messages] returns exactly when [get_message_id_in_room]
    returns [event] for [room]; and no room occurs twice in the list. *)
Theorem missed_messages_agree_with_marker (uid : string) (w : World) :
  Sql.pk_ok msg_room_id (autoreply_messages (database w)) ->
  exists markers,
    value (Store.get_missed_messages uid) w = inr markers /\
    (forall room event,
       In (room, event) markers <->
       value (Store.get_message_id_in_room uid room) w = inr (Some event)) /\
    NoDup (map fst markers).
Proof.
  intros Hpk. eexists. split; [reflexivity|]. split.
  - intros room event. unfold value. rewrite get_message_id_in_room_eq.
    cbn [snd]. split.
    + intros Hin. apply in_map_iff in Hin.
      destruct Hin as [r [[= Hroom Hevent] Hr]].
      apply filter_In in Hr. destruct Hr as [Hr Hown]. f_equal.
      rewrite <- Hevent.
      apply (fetchval_unique _ msg_room_id _ msg_event_id _ r); auto.
      * unfold in_room, owner_row. now rewrite Hroom, String.eqb_refl, Hown.
      * intros x Hx. apply andb_prop in Hx. destruct Hx as [Hx _].
        unfold in_room in Hx. apply String.eqb_eq in Hx. congruence.
    + intros [= H]. apply fetchval_Some in H.
      destruct H as [r [Hr [Hp Hevent]]]. apply andb_prop in Hp.
      destruct Hp as [Hroom Hown]. unfold in_room in Hroom.
      apply String.eqb_eq in Hroom. apply in_map_iff. exists r.
      split; [congruence|]. apply filter_In. now split.
  - rewrite map_map. simpl.
    change (NoDup (map msg_room_id
                     (Sql.fetch (fun r => String.eqb (msg_user_id r) uid)
                        (autoreply_messages (database w))))).
    unfold Sql.fetch. now apply filter_pk_ok.
Qed.

Lemma missed_messages_agree_with_marker_witness :
  value (Store.get_message_id_in_room "@me:hs" "!bob:hs") missed_example
  = inr (Some "$hello").
Proof.
  assert (Hpk : Sql.pk_ok msg_room_id
                  (autoreply_messages (database missed_example))).
  { unfold Sql.pk_ok. simpl. repeat constructor; simpl; intuition discriminate. }
  destruct (missed_messages_agree_with_marker "@me:hs" missed_example Hpk)
    as [markers [Hm [Hiff _]]].
  injection Hm as <-. apply Hiff. simpl. auto.
Defined.

(** X5: a marker stored is a marker read.  When no row holds the room,
    [store_message] succeeds; the owner's marker of the room is then the
    event stored, the markers of the owner's other rooms read as before,
    and the list of missed messages holds the former entries and
    [(room, event)], one more entry and nothing else, in whatever order
    the rows come back. *)
Theorem store_message_round_trip (uid event room : string) (w : World) :
  (forall row, In row (autoreply_messages (database w)) ->
     msg_room_id row <> room) ->
  let w' := effect (Store.store_message uid event room) w in
  value (Store.store_message uid event room) w = inr tt /\
  value (Store.get_message_id_in_room uid room) w' = inr (Some event) /\
  (forall other, other <> room ->
     value (Store.get_message_id_in_room uid other) w'
       = value (Store.get_message_id_in_room uid other) w) /\
  exists markers markers',
    value (Store.get_missed_messages uid) w = inr markers /\
    value (Store.get_missed_messages uid) w' = inr markers' /\
    Permutation markers' ((room, event) :: markers).
Proof.
  intros Hfree w'.
  assert (Hk : Sql.has_key msg_room_id room
                 (autoreply_messages (database w)) = false)
    by now apply has_key_false.
  subst w'. unfold effect, value. rewrite store_message_eq, Hk. cbn [fst snd].
  split; [reflexivity|]. split; [|split].
  - rewrite get_message_id_in_room_eq. cbn [snd]. simpl. f_equal.
    apply fetchval_appended. apply fetchval_None. intros r Hr.
    unfold in_room. specialize (Hfree r Hr). apply String.eqb_neq in Hfree.
    now rewrite Hfree.
  - intros other Hother. rewrite !get_message_id_in_room_eq. cbn [snd].
    simpl. f_equal. apply fetchval_app_skip. unfold in_room. simpl.
    apply String.eqb_neq in Hother. rewrite String.eqb_sym in Hother.
    now rewrite Hother.
  - eexists. eexists. split; [reflexivity|].
    rewrite get_missed_messages_eq. cbn [snd]. split; [reflexivity|].
    simpl. rewrite filter_app, map_app. simpl.
    unfold owner_row at 2. simpl. rewrite String.eqb_refl. simpl.
    apply Permutation_sym, Permutation_cons_append.
Qed.

Lemma store_message_round_trip_witness :
  exists markers',
    value (Store.get_missed_messages "@me:hs")
      (effect (Store.store_message "@me:hs" "$new" "!new:hs") missed_example)
    = inr markers' /\
    Permutation markers'
      [("!new:hs", "$new"); ("!dm:hs", "$first"); ("!bob:hs", "$hello")].
Proof.
  assert (Hfree : forall row,
            In row (autoreply_messages (database missed_example)) ->
            msg_room_id row <> "!new:hs")
    by (simpl; intros row [<-|[<-|[]]]; discriminate).
  destruct (store_message_round_trip "@me:hs" "$new" "!new:hs"
              missed_example Hfree)
    as [_ [_ [_ [markers [markers' [Hm [Hm' Hperm]]]]]]].
  injection Hm as <-. exists markers'. split; [exact Hm' | exact Hperm].
Defined.

(** * Further properties of the handlers *)

(** The four ways [_auto_reply] ends. *)
Lemma auto_reply_outcomes self evt w :
  (~ criteria self evt w /\ _auto_reply self evt w = (w, inr tt)
   /\ ~ (reaches_lookup self evt w /\ exists e, m_direct self = inl e))
  \/ (exists e, m_direct self = inl e /\ reaches_lookup self evt w /\
                _auto_reply self evt w = (w, inl e))
  \/ (criteria self evt w /\
      Sql.has_key msg_room_id (room_id evt) (autoreply_messages (database w))
        = true /\
      _auto_reply self evt w
        = (MkWorld (database w) (sent w ++ [auto_reply_to self evt]),
           inl IntegrityError))
  \/ (criteria self evt w /\
      Sql.has_key msg_room_id (room_id evt) (autoreply_messages (database w))
        = false /\
      _auto_reply self evt w = (replied_and_marked self evt w, inr tt)).
Proof.
  unfold criteria.
  destruct (auto_reply_cases self evt w) as [[Hreach E]|[Hstop E]].
  - destruct (m_direct self) as [e|data] eqn:Hdata.
    + right. left. exists e. auto.
    + destruct (scan_items (room_id evt) data) eqn:Hscan.
      * assert (Hlisted : listed_direct (room_id evt) data)
          by now apply scan_items_listed.
        assert (Hcrit : reaches_lookup self evt w /\
                  exists d, @inr Exception _ data = inr d
                            /\ listed_direct (room_id evt) d)
          by (split; [assumption | now exists data]).
        destruct (Sql.has_key msg_room_id (room_id evt)
                    (autoreply_messages (database w))) eqn:Hk.
        -- right. right. left. split; [assumption|]. split; [reflexivity|].
           rewrite E. unfold bind, reply. rewrite store_message_eq. simpl.
           now rewrite Hk.
        -- right. right. right. split; [assumption|]. split; [reflexivity|].
           rewrite E. now apply reply_then_store.
      * left. split; [|split; [exact E|]].
        -- intros [_ [d [[= <-] H]]]. apply scan_items_listed in H.
           congruence.
        -- intros [_ [e He]]. discriminate.
  - left. split; [tauto|]. split; [exact E | tauto].
Qed.

(** X6: the three tests made before the account-data lookup stop the
    handler quietly.  A message outside the management room that the bot
    sent itself, or that arrives while the store says not away, or whose
    room already has a marker of the owner, changes nothing, sends nothing
    and raises nothing, whatever the lookup would have given (a failure
    included: the lookup is not made). *)
Theorem early_tests_stop_quietly (self : AutoReplyBot) (evt : MessageEvent)
    (w : World) :
  room_id evt <> management_room self ->
  (sender evt = mxid self \/
   value (Store.is_away (mxid self)) w = inr false \/
   exists event,
     value (Store.get_message_id_in_room (mxid self) (room_id evt)) w
       = inr (Some event)) ->
  handle_message self evt w = (w, inr tt).
Proof.
  intros Hroom Hstop. rewrite handle_message_other by assumption.
  destruct (auto_reply_cases self evt w) as [[[Hs [Ha Hm]] _]|[_ E]];
    [|exact E].
  destruct Hstop as [H|[H|[event H]]]; [contradiction| |];
    congruence.
Qed.

Lemma early_tests_stop_quietly_witness :
  handle_message me_lookup_failing
    (MkMessageEvent "@alice:hs" "!dm:hs" "$again" "hello?") missed_example
  = (missed_example, inr tt).
Proof.
  apply early_tests_stop_quietly.
  - simpl. discriminate.
  - right. right. exists "$first". reflexivity.
Defined.

(** X7: what a message outside the management room never does, whatever
    its body (a command text included).  The away table and the
    management-room table are untouched, so [is_away] answers as before; no
    marker is removed or rewritten: the table of markers is the former one,
    with at most the marker of this message added at its end; and at most
    one reply is sent, the configured text in answer to this message. *)
Theorem direct_message_only_appends (self : AutoReplyBot)
    (evt : MessageEvent) (w : World) :
  room_id evt <> management_room self ->
  let w' := effect (handle_message self evt) w in
  autoreply_user_away (database w') = autoreply_user_away (database w) /\
  autoreply_management_rooms (database w')
    = autoreply_management_rooms (database w) /\
  value (Store.is_away (mxid self)) w' = value (Store.is_away (mxid self)) w /\
  (autoreply_messages (database w') = autoreply_messages (database w) \/
   autoreply_messages (database w')
     = autoreply_messages (database w)
         ++ [MkMessageRow (room_id evt) (event_id evt) (mxid self)]) /\
  (sent w' = sent w \/ sent w' = sent w ++ [auto_reply_to self evt]).
Proof.
  intros Hroom w'. subst w'. rewrite handle_message_other by assumption.
  unfold effect, value. rewrite !is_away_eq. cbn [snd].
  destruct (auto_reply_outcomes self evt w)
    as [[_ [E _]]|[[e [_ [_ E]]]|[[_ [_ E]]|[_ [_ E]]]]];
    rewrite E; simpl; auto 6.
Qed.

Lemma direct_message_only_appends_witness :
  value (Store.is_away "@me:hs")
    (effect (handle_message me
               (MkMessageEvent "@me:hs" "!dm:hs" "$typo" "!back"))
       missed_example)
  = inr true.
Proof.
  assert (Hroom : "!dm:hs" <> management_room me) by (simpl; discriminate).
  destruct (direct_message_only_appends me
              (MkMessageEvent "@me:hs" "!dm:hs" "$typo" "!back")
              missed_example Hroom) as [_ [_ [H _]]].
  exact (eq_trans H eq_refl).
Defined.

(** X8: a management-room message whose body starts with [!away] runs the
    [!away] branch alone.  It never raises; afterwards the store says away,
    whatever it said before; one reply, the fixed confirmation, is sent to
    the command event; the markers and the management rooms are as they
    were: going away does not clear earlier markers. *)
Theorem away_command_sets_away (self : AutoReplyBot) (evt : MessageEvent)
    (w : World) :
  room_id evt = management_room self ->
  startswith (body evt) "!away" = true ->
  let w' := effect (handle_message self evt) w in
  handle_message self evt w = on_away self evt w /\
  value (handle_message self evt) w = inr tt /\
  value (Store.is_away (mxid self)) w' = inr true /\
  sent w' = sent w ++
    [MkReply (room_id evt) (event_id evt)
       "Your status has been updated. Have a nice break!" None] /\
  autoreply_messages (database w') = autoreply_messages (database w) /\
  autoreply_management_rooms (database w')
    = autoreply_management_rooms (database w).
Proof.
  intros Hroom Haway w'.
  destruct (commands_exclusive (body evt)) as [_ [Ha _]].
  destruct (Ha Haway) as [Hc _].
  assert (E : handle_message self evt w = on_away self evt w).
  { rewrite handle_message_management by assumption.
    now rewrite handle_management_command_eq, Hc, Haway. }
  split; [exact E|]. subst w'. unfold effect, value at 1.
  rewrite E, on_away_eq. cbn [fst snd sent database].
  repeat split. unfold value. rewrite is_away_eq. cbn [snd]. simpl.
  now rewrite fetchval_set_away.
Qed.

Lemma away_command_sets_away_witness :
  value (Store.is_away "@me:hs")
    (effect (handle_message me
               (MkMessageEvent "@me:hs" "!mgmt:hs" "$cmd" "!away"))
       (MkWorld schema_v1 []))
  = inr true.
Proof.
  destruct (away_command_sets_away me
              (MkMessageEvent "@me:hs" "!mgmt:hs" "$cmd" "!away")
              (MkWorld schema_v1 []) eq_refl eq_refl) as [_ [_ [H _]]].
  exact H.
Defined.

Lemma room_owned_filter uid room (db : Database) p :
  room_owned uid room db ->
  room_owned uid room
    (Store.with_messages db (filter p (autoreply_messages db))).
Proof.
  intros H row Hrow. simpl in Hrow. apply filter_In in Hrow.
  apply H. tauto.
Qed.

(** After the owner's markers are deleted and with the store saying away,
    a message of someone else in a listed room meets the four criteria. *)
Lemma criteria_after_cleanup self evt data (w1 : World) t :
  sender evt <> mxid self ->
  m_direct self = inr data -> listed_direct (room_id evt) data ->
  autoreply_messages (database w1)
    = filter (fun r => negb (owner_row (mxid self) r)) t ->
  value (Store.is_away (mxid self)) w1 = inr true ->
  criteria self evt w1.
Proof.
  intros Hs Hdata Hlisted Hmsgs Haway. split; [|now exists data].
  split; [assumption|]. split; [assumption|].
  unfold value. rewrite get_message_id_in_room_eq. cbn [snd]. f_equal.
  rewrite Hmsgs. apply fetchval_cleared.
Qed.

(** X9: [!clear] lets the bot answer again.  While the owner is away,
    once a [!clear] command has been handled, a message of someone else in
    a room listed as direct is answered and marked, also when the room had
    a marker of the owner before the command (no other owner's row being on
    the room). *)
Theorem clear_allows_new_reply (self : AutoReplyBot)
    (data : list (string * list string)) (cmd evt : MessageEvent)
    (w : World) :
  room_id cmd = management_room self ->
  startswith (body cmd) "!clear" = true ->
  room_id evt <> management_room self ->
  sender evt <> mxid self ->
  m_direct self = inr data -> listed_direct (room_id evt) data ->
  value (Store.is_away (mxid self)) w = inr true ->
  room_owned (mxid self) (room_id evt) (database w) ->
  let w1 := effect (handle_message self cmd) w in
  handle_message self evt w1 = (replied_and_marked self evt w1, inr tt).
Proof.
  intros Hcmd Hclear Hroom Hs Hdata Hlisted Haway Howned w1.
  assert (E : w1 = fst (on_clear self cmd w)).
  { unfold w1, effect. rewrite handle_message_management by assumption.
    now rewrite handle_management_command_eq, Hclear. }
  rewrite on_clear_eq in E. cbn [fst] in E.
  rewrite handle_message_other by assumption.
  apply criteria_reply_and_mark.
  - rewrite E. cbn [database]. now apply room_owned_filter.
  - apply criteria_after_cleanup
      with (data := data) (t := autoreply_messages (database w));
      try assumption.
    + now rewrite E.
    + rewrite E. unfold value in *. rewrite is_away_eq in *. exact Haway.
Qed.

Lemma clear_allows_new_reply_witness :
  let cmd := MkMessageEvent "@me:hs" "!mgmt:hs" "$cmd" "!clear" in
  let evt := MkMessageEvent "@alice:hs" "!dm:hs" "$new" "still there?" in
  sent (effect (handle_message me evt)
          (effect (handle_message me cmd) missed_example))
  = [MkReply "!mgmt:hs" "$cmd" "Cleared messages" None;
     MkReply "!dm:hs" "$new" "I am away, I will answer later." None].
Proof.
  intros cmd evt.
  assert (Hroom : room_id evt <> management_room me)
    by (simpl; discriminate).
  assert (Hs : sender evt <> mxid me) by (simpl; discriminate).
  assert (Hlisted : listed_direct (room_id evt)
            [("@alice:hs", ["!dm:hs"]); ("@bob:hs", ["!old:hs"; "!bob:hs"])])
    by (exists "@alice:hs", ["!dm:hs"]; simpl; auto).
  assert (Howned : room_owned (mxid me) (room_id evt)
                     (database missed_example))
    by (simpl; intros row [<-|[<-|[]]]; reflexivity).
  pose proof (clear_allows_new_reply me _ cmd evt missed_example
                eq_refl eq_refl Hroom Hs eq_refl Hlisted eq_refl Howned)
    as H.
  unfold effect at 1. simpl in H. rewrite H. reflexivity.
Defined.

(** X10: the normal cycle lets the bot answer again.  Once [!back] and
    then [!away] have been handled, a message of someone else in a room
    listed as direct is answered and marked, whatever the away flag and the
    owner's markers were before the two commands (no other owner's row
    being on the room). *)
Theorem back_then_away_allows_new_reply (self : AutoReplyBot)
    (data : list (string * list string)) (back_cmd away_cmd evt : MessageEvent)
    (w : World) :
  room_id back_cmd = management_room self ->
  startswith (body back_cmd) "!back" = true ->
  room_id away_cmd = management_room self ->
  startswith (body away_cmd) "!away" = true ->
  room_id evt <> management_room self ->
  sender evt <> mxid self ->
  m_direct self = inr data -> listed_direct (room_id evt) data ->
  room_owned (mxid self) (room_id evt) (database w) ->
  let w2 := handle_all self [back_cmd; away_cmd] w in
  handle_message self evt w2 = (replied_and_marked self evt w2, inr tt).
Proof.
  intros Hb Hback Ha Haway Hroom Hs Hdata Hlisted Howned w2.
  destruct (commands_exclusive (body back_cmd)) as [_ [_ Hxb]].
  destruct (Hxb Hback) as [Hbc Hba].
  destruct (commands_exclusive (body away_cmd)) as [_ [Hxa _]].
  destruct (Hxa Haway) as [Hac _].
  assert (E : w2 = fst (on_away self away_cmd (fst (on_back self back_cmd w)))).
  { unfold w2. cbn [handle_all]. unfold effect.
    rewrite !handle_message_management by assumption.
    rewrite !handle_management_command_eq.
    now rewrite Hbc, Hba, Hback, Hac, Haway. }
  rewrite on_back_eq in E. cbn [fst] in E. rewrite on_away_eq in E.
  cbn [fst database sent autoreply_user_away] in E.
  rewrite handle_message_other by assumption.
  apply criteria_reply_and_mark.
  - rewrite E. cbn [database]. intros row Hrow. simpl in Hrow.
    apply filter_In in Hrow. apply Howned. tauto.
  - apply criteria_after_cleanup
      with (data := data) (t := autoreply_messages (database w));
      try assumption.
    + now rewrite E.
    + rewrite E. unfold value. rewrite is_away_eq. cbn [snd]. simpl.
      now rewrite fetchval_set_away.
Qed.

Lemma back_then_away_allows_new_reply_witness :
  let back_cmd := MkMessageEvent "@me:hs" "!mgmt:hs" "$b" "!back" in
  let away_cmd := MkMessageEvent "@me:hs" "!mgmt:hs" "$a" "!away" in
  let evt := MkMessageEvent "@alice:hs" "!dm:hs" "$new" "still there?" in
  autoreply_messages
    (database (handle_all me [back_cmd; away_cmd; evt] missed_example))
  = [MkMessageRow "!dm:hs" "$new" "@me:hs"].
Proof.
  intros back_cmd away_cmd evt.
  assert (Hroom : room_id evt <> management_room me)
    by (simpl; discriminate).
  assert (Hs : sender evt <> mxid me) by (simpl; discriminate).
  assert (Hlisted : listed_direct (room_id evt)
            [("@alice:hs", ["!dm:hs"]); ("@bob:hs", ["!old:hs"; "!bob:hs"])])
    by (exists "@alice:hs", ["!dm:hs"]; simpl; auto).
  assert (Howned : room_owned (mxid me) (room_id evt)
                     (database missed_example))
    by (simpl; intros row [<-|[<-|[]]]; reflexivity).
  pose proof (back_then_away_allows_new_reply me _ back_cmd away_cmd evt
                missed_example eq_refl eq_refl eq_refl eq_refl Hroom Hs
                eq_refl Hlisted Howned) as H.
  change (handle_all me [back_cmd; away_cmd; evt] missed_example)
    with (fst (handle_message me evt
                 (handle_all me [back_cmd; away_cmd] missed_example))).
  cbv zeta in H. rewrite H. reflexivity.
Defined.

Section KeyLemmas.
Variable Row : Type.
Variable pk : Row -> string.

(** Under the key constraint two rows of the same key are the same row. *)
Lemma pk_ok_same_row (t : list Row) (r1 r2 : Row) :
  Sql.pk_ok pk t -> In r1 t -> In r2 t -> pk r1 = pk r2 -> r1 = r2.
Proof.
  unfold Sql.pk_ok. induction t as [|x t IH]; simpl; [intros _ []|].
  intros Hnd H1 H2 Hk. inversion Hnd as [|? ? Hx Ht]; subst.
  destruct H1 as [->|H1]; destruct H2 as [->|H2]; auto.
  - exfalso. apply Hx. rewrite Hk. now apply in_map.
  - exfalso. apply Hx. rewrite <- Hk. now apply in_map.
Qed.
End KeyLemmas.

Lemma handle_all_app self (evts1 evts2 : list MessageEvent) (w : World) :
  handle_all self (evts1 ++ evts2) w
  = handle_all self evts2 (handle_all self evts1 w).
Proof.
  revert w. induction evts1 as [|evt evts1 IH]; intros w; simpl;
    [reflexivity | apply IH].
Qed.

(** The criteria read the database only. *)
Lemma criteria_database self evt (w w0 : World) :
  database w0 = database w -> criteria self evt w -> criteria self evt w0.
Proof.
  intros Hdb [[Hs [Ha Hm]] Hl]. split; [|assumption].
  unfold reaches_lookup, value in *.
  rewrite (is_away_eq (mxid self) w) in Ha.
  rewrite (get_message_id_in_room_eq (mxid self) (room_id evt) w) in Hm.
  rewrite (is_away_eq (mxid self) w0).
  rewrite (get_message_id_in_room_eq (mxid self) (room_id evt) w0).
  rewrite Hdb. repeat split; assumption.
Qed.

(** With another owner's row on the room, a message that meets the
    criteria is answered and the marker refused. *)
Lemma foreign_marker_step self evt (w : World) :
  room_id evt <> management_room self ->
  criteria self evt w ->
  Sql.has_key msg_room_id (room_id evt) (autoreply_messages (database w))
    = true ->
  handle_message self evt w
  = (MkWorld (database w) (sent w ++ [auto_reply_to self evt]),
     inl IntegrityError).
Proof.
  intros Hroom Hcrit Hk. rewrite handle_message_other by assumption.
  destruct (auto_reply_outcomes self evt w)
    as [[Hn _]|[[e [He _]]|[[_ [_ E]]|[_ [Hk' _]]]]].
  - contradiction.
  - destruct Hcrit as [_ [d [Hd _]]]. congruence.
  - exact E.
  - congruence.
Qed.

(** X11: another owner's row on a room defeats the once-per-room rule.
    The owner is away, the room is listed as direct, the table satisfies
    its key constraint and holds a row for the room under another user.
    Then every message of someone else in that room is answered with the
    auto-reply and then raises the constraint violation, the database
    staying as it was: a sequence of such messages gets one reply each. *)
Theorem foreign_marker_repeats_reply (self : AutoReplyBot)
    (data : list (string * list string)) (room : string)
    (foreign : message_row) (evts : list MessageEvent) (w : World) :
  m_direct self = inr data ->
  listed_direct room data ->
  room <> management_room self ->
  Forall (from_other_in self room) evts ->
  value (Store.is_away (mxid self)) w = inr true ->
  Sql.pk_ok msg_room_id (autoreply_messages (database w)) ->
  In foreign (autoreply_messages (database w)) ->
  msg_room_id foreign = room ->
  msg_user_id foreign <> mxid self ->
  (forall evt, In evt evts ->
     handle_message self evt w
     = (MkWorld (database w) (sent w ++ [auto_reply_to self evt]),
        inl IntegrityError)) /\
  database (handle_all self evts w) = database w /\
  sent (handle_all self evts w) = sent w ++ map (auto_reply_to self) evts.
Proof.
  intros Hdata Hlisted Hmgmt Hall Haway Hpk Hin Hfroom Hfuser.
  assert (Hk : Sql.has_key msg_room_id room
                 (autoreply_messages (database w)) = true)
    by (apply has_key_true; now exists foreign).
  assert (Hstep : forall evt w0,
            from_other_in self room evt -> database w0 = database w ->
            handle_message self evt w0
            = (MkWorld (database w0) (sent w0 ++ [auto_reply_to self evt]),
               inl IntegrityError)).
  { intros evt w0 [Hs Hr] Hdb. apply foreign_marker_step.
    - now rewrite Hr.
    - apply criteria_database with (w := w); [assumption|].
      split; [|exists data; now rewrite Hr].
      split; [assumption|]. split; [assumption|].
      unfold value. rewrite get_message_id_in_room_eq. cbn [snd]. f_equal.
      apply fetchval_None. intros r Hrow.
      destruct (in_room (room_id evt) r && owner_row (mxid self) r) eqn:E;
        [|reflexivity].
      apply andb_prop in E. destruct E as [E1 E2].
      apply String.eqb_eq in E1. apply String.eqb_eq in E2.
      assert (r = foreign)
        by (apply (pk_ok_same_row _ msg_room_id
                     (autoreply_messages (database w))); congruence).
      congruence.
    - now rewrite Hr, Hdb. }
  split.
  - intros evt Hevt. rewrite Forall_forall in Hall. now apply Hstep; auto.
  - assert (Hgen : forall w0, database w0 = database w ->
              database (handle_all self evts w0) = database w /\
              sent (handle_all self evts w0)
                = sent w0 ++ map (auto_reply_to self) evts).
    { induction Hall as [|evt rest Hevt _ IH]; intros w0 Hdb; simpl.
      - split; [assumption | now rewrite app_nil_r].
      - unfold effect. rewrite (Hstep evt w0 Hevt Hdb). cbn [fst].
        destruct (IH (MkWorld (database w0)
                        (sent w0 ++ [auto_reply_to self evt])) Hdb)
          as [H1 H2].
        split; [exact H1|]. rewrite H2. cbn [sent].
        now rewrite <- app_assoc. }
    now apply Hgen.
Qed.

Lemma foreign_marker_repeats_reply_witness :
  let evts := [first_message;
               MkMessageEvent "@alice:hs" "!dm:hs" "$second" "hello?"] in
  let w' := handle_all me evts foreign_marker_example in
  database w' = database foreign_marker_example /\
  sent w' = [MkReply "!dm:hs" "$first" "I am away, I will answer later." None;
             MkReply "!dm:hs" "$second" "I am away, I will answer later."
               None].
Proof.
  intros evts w'.
  assert (Hlisted : listed_direct "!dm:hs"
            [("@alice:hs", ["!dm:hs"]); ("@bob:hs", ["!old:hs"; "!bob:hs"])])
    by (exists "@alice:hs", ["!dm:hs"]; simpl; auto).
  assert (Hmgmt : "!dm:hs" <> management_room me) by (simpl; discriminate).
  assert (Hall : Forall (from_other_in me "!dm:hs") evts)
    by (repeat constructor; simpl; discriminate).
  assert (Hpk : Sql.pk_ok msg_room_id
                  (autoreply_messages (database foreign_marker_example)))
    by (unfold Sql.pk_ok; simpl; repeat constructor; simpl; tauto).
  assert (Hin : In (MkMessageRow "!dm:hs" "$first" "@other:hs")
                  (autoreply_messages (database foreign_marker_example)))
    by (simpl; auto).
  assert (Hne : msg_user_id (MkMessageRow "!dm:hs" "$first" "@other:hs")
                <> mxid me) by (simpl; discriminate).
  destruct (foreign_marker_repeats_reply me _ "!dm:hs" _ evts
              foreign_marker_example eq_refl Hlisted Hmgmt Hall eq_refl
              Hpk Hin eq_refl Hne) as [_ [Hdb Hsent]].
  split; [exact Hdb | exact Hsent].
Defined.

Lemma criteria_room_free self evt w :
  markers_owned (mxid self) (database w) ->
  criteria self evt w ->
  Sql.has_key msg_room_id (room_id evt) (autoreply_messages (database w))
    = false.
Proof.
  intros Hown [[_ [_ Hnone]] _].
  apply room_free with (uid := mxid self).
  - now apply markers_owned_room_owned.
  - unfold value in Hnone. rewrite get_message_id_in_room_eq in Hnone.
    cbn [snd] in Hnone. congruence.
Qed.

(** X12: for a message outside the management room, handled on its own
    in a database whose markers all belong to the bot's user, the check
    made before the insert is enough: the key violation is never raised.
    The handler returns normally, or it raises the exception of a failed
    account-data lookup, the world then being as it was. *)
Theorem single_owner_never_violates_key (self : AutoReplyBot)
    (evt : MessageEvent) (w : World) :
  room_id evt <> management_room self ->
  markers_owned (mxid self) (database w) ->
  value (handle_message self evt) w = inr tt \/
  (exists e, m_direct self = inl e /\
             value (handle_message self evt) w = inl e /\
             effect (handle_message self evt) w = w).
Proof.
  intros Hroom Hown. rewrite handle_message_other by assumption.
  unfold value, effect.
  destruct (auto_reply_outcomes self evt w)
    as [[_ [E _]]|[[e [He [_ E]]]|[[Hc [Hk _]]|[_ [_ E]]]]].
  - left. now rewrite E.
  - right. exists e. rewrite E. auto.
  - rewrite (criteria_room_free self evt w Hown Hc) in Hk. discriminate.
  - left. now rewrite E.
Qed.

Lemma single_owner_never_violates_key_witness :
  value (handle_message me first_message) missed_example = inr tt.
Proof.
  assert (Hroom : room_id first_message <> management_room me)
    by (simpl; discriminate).
  assert (Hown : markers_owned (mxid me) (database missed_example))
    by (simpl; intros row [<-|[<-|[]]]; reflexivity).
  destruct (single_owner_never_violates_key me first_message missed_example
              Hroom Hown) as [H|[e [He _]]]; [exact H | discriminate He].
Defined.

Lemma auto_reply_keeps_away_rule self evt w :
  markers_only_while_away (mxid self) w ->
  markers_only_while_away (mxid self) (effect (_auto_reply self evt) w).
Proof.
  unfold markers_only_while_away, effect, value. intros Hrule.
  rewrite (is_away_eq (mxid self) w),
    (get_missed_messages_eq (mxid self) w) in Hrule.
  rewrite is_away_eq, get_missed_messages_eq. cbn [snd] in *.
  destruct (auto_reply_outcomes self evt w)
    as [[_ [E _]]|[[e [_ [_ E]]]|[[_ [_ E]]|[[[_ [Ha _]] _] [_ E]]]]];
    rewrite E; cbn [fst database]; try exact Hrule.
  unfold value in Ha. rewrite is_away_eq in Ha. cbn [snd] in Ha.
  simpl. intros H. congruence.
Qed.

Lemma management_keeps_away_rule self evt w :
  markers_only_while_away (mxid self) w ->
  markers_only_while_away (mxid self)
    (effect (_handle_management_command self evt) w).
Proof.
  unfold markers_only_while_away, effect, value. intros Hrule.
  rewrite handle_management_command_eq.
  destruct (startswith (body evt) "!clear").
  { rewrite on_clear_eq. cbn [fst]. intros _.
    rewrite get_missed_messages_eq. cbn [snd]. simpl.
    now rewrite missed_after_clear. }
  destruct (startswith (body evt) "!away").
  { rewrite on_away_eq. cbn [fst]. rewrite is_away_eq. cbn [snd]. simpl.
    rewrite fetchval_set_away. discriminate. }
  destruct (startswith (body evt) "!back").
  { rewrite on_back_eq. cbn [fst]. intros _.
    rewrite get_missed_messages_eq. cbn [snd]. simpl.
    now rewrite missed_after_clear. }
  exact Hrule.
Qed.

Lemma handle_message_consistent self evt w :
  consistent (mxid self) w ->
  consistent (mxid self) (effect (handle_message self evt) w).
Proof.
  intros [Hc [Hown Hrule]]. split; [|split].
  - now apply handle_message_constraints.
  - now apply handle_message_markers_owned.
  - unfold handle_message.
    destruct (String.eqb (room_id evt) (management_room self)).
    + now apply management_keeps_away_rule.
    + now apply auto_reply_keeps_away_rule.
Qed.

(** X13: what every handled message keeps.  If the three key constraints
    hold, every marker belongs to the owner and the owner has no marker
    while not away, then the same is true after any message is handled,
    and so after any sequence of messages; the database left by
    [schema_v1] is such a database.  In particular markers only exist
    while the owner is away. *)
Theorem handlers_keep_consistency (self : AutoReplyBot)
    (evts : list MessageEvent) (w : World) :
  consistent (mxid self) w ->
  (forall evt, consistent (mxid self) (effect (handle_message self evt) w)) /\
  consistent (mxid self) (handle_all self evts w) /\
  consistent (mxid self) (MkWorld schema_v1 []).
Proof.
  intros Hcons. split; [|split].
  - intros evt. now apply handle_message_consistent.
  - revert w Hcons. induction evts as [|evt evts IH]; intros w Hcons; simpl;
      [assumption|].
    apply IH. now apply handle_message_consistent.
  - destruct (schema_v1_invariants (mxid self)) as [Hc Hown].
    split; [exact Hc|]. split; [exact Hown|]. intros _. reflexivity.
Qed.

Lemma handlers_keep_consistency_witness :
  let evts := [MkMessageEvent "@me:hs" "!mgmt:hs" "$a" "!away";
               first_message;
               MkMessageEvent "@me:hs" "!mgmt:hs" "$b" "!back"] in
  consistent "@me:hs" (handle_all me evts (MkWorld schema_v1 [])).
Proof.
  intros evts.
  assert (Hfresh : consistent (mxid me) (MkWorld schema_v1 [])).
  { destruct (schema_v1_invariants (mxid me)) as [Hc Hown].
    split; [exact Hc|]. split; [exact Hown|]. intros _. reflexivity. }
  destruct (handlers_keep_consistency me evts (MkWorld schema_v1 []) Hfresh)
    as [_ [H _]].
  exact H.
Defined.

Lemma marked_room_quiet self evt w event :
  room_id evt <> management_room self ->
  value (Store.get_message_id_in_room (mxid self) (room_id evt)) w
    = inr (Some event) ->
  handle_message self evt w = (w, inr tt).
Proof.
  intros Hroom Hm. rewrite handle_message_other by assumption.
  destruct (auto_reply_cases self evt w) as [[[_ [_ Hn]] _]|[_ E]];
    [congruence | exact E].
Qed.

(** X14: a whole absence.  The owner has no marker and no row holds the
    room; [!away] is handled, then the messages [first :: later] of
    someone else in a room listed as direct, then [!back].  Three replies
    are sent in all: the confirmation of [!away], the auto-reply to
    [first], and the confirmation of [!back] followed by the summary of the
    single marker [(room, event_id first)].  At the end the store says not
    away and the list of missed messages is empty. *)
Theorem absence_reports_first_message (self : AutoReplyBot)
    (data : list (string * list string)) (room : string)
    (away_cmd first back_cmd : MessageEvent) (later : list MessageEvent)
    (w : World) :
  m_direct self = inr data ->
  listed_direct room data ->
  room <> management_room self ->
  room_id away_cmd = management_room self ->
  startswith (body away_cmd) "!away" = true ->
  room_id back_cmd = management_room self ->
  startswith (body back_cmd) "!back" = true ->
  Forall (from_other_in self room) (first :: later) ->
  value (Store.get_missed_messages (mxid self)) w = inr [] ->
  (forall row, In row (autoreply_messages (database w)) ->
     msg_room_id row <> room) ->
  let w' := handle_all self (away_cmd :: first :: later ++ [back_cmd]) w in
  sent w' = sent w ++
    [MkReply (management_room self) (event_id away_cmd)
       "Your status has been updated. Have a nice break!" None;
     auto_reply_to self first;
     MkReply (management_room self) (event_id back_cmd)
       ("Your status has been updated. Welcome back!" ^^ nl ^^ nl
        ^^ summary_text [(room, event_id first)])
       (Some true)] /\
  value (Store.is_away (mxid self)) w' = inr false /\
  value (Store.get_missed_messages (mxid self)) w' = inr [].
Proof.
  intros Hdata Hlisted Hmgmt Ha Haway Hb Hback Hall Hmissed Hfree w'.
  inversion Hall as [|? ? [Hsender Hroom] Hlater]; subst.
  destruct (commands_exclusive (body away_cmd)) as [_ [Hxa _]].
  destruct (Hxa Haway) as [Hac _].
  destruct (commands_exclusive (body back_cmd)) as [_ [_ Hxb]].
  destruct (Hxb Hback) as [Hbc Hba].
  (* the world after [!away] *)
  set (w1 := effect (handle_message self away_cmd) w).
  assert (E1 : w1 = fst (on_away self away_cmd w)).
  { unfold w1, effect. rewrite handle_message_management by assumption.
    now rewrite handle_management_command_eq, Hac, Haway. }
  rewrite on_away_eq in E1. cbn [fst] in E1.
  (* the first message is answered and marked *)
  assert (Hnone1 : Sql.fetchval msg_event_id
                     (fun r => in_room (room_id first) r
                               && owner_row (mxid self) r)
                     (autoreply_messages (database w)) = None).
  { apply fetchval_None. intros r Hr. unfold in_room.
    specialize (Hfree r Hr). apply String.eqb_neq in Hfree.
    now rewrite Hfree. }
  assert (Hcrit : criteria self first w1).
  { split; [|now exists data]. split; [assumption|]. rewrite E1.
    unfold value. rewrite is_away_eq, get_message_id_in_room_eq.
    cbn [snd]. simpl. rewrite fetchval_set_away. split; [reflexivity|].
    now f_equal. }
  assert (Howned : room_owned (mxid self) (room_id first) (database w1)).
  { rewrite E1. intros r Hr Heq. simpl in Hr. now apply Hfree in Hr. }
  set (w2 := effect (handle_message self first) w1).
  assert (E2 : handle_message self first w1
               = (replied_and_marked self first w1, inr tt)).
  { rewrite handle_message_other by assumption.
    now apply criteria_reply_and_mark. }
  assert (Ew2 : w2 = replied_and_marked self first w1)
    by (unfold w2, effect; now rewrite E2).
  (* the later messages change nothing *)
  assert (Hm2 : value (Store.get_message_id_in_room (mxid self)
                         (room_id first)) w2 = inr (Some (event_id first))).
  { rewrite Ew2. apply replied_and_marked_reads_marker. apply Hcrit. }
  assert (Hquiet : handle_all self later w2 = w2).
  { apply handle_all_fixed. apply Forall_forall. intros evt Hevt.
    rewrite Forall_forall in Hlater. destruct (Hlater evt Hevt) as [_ Hr].
    apply marked_room_quiet with (event := event_id first).
    - now rewrite Hr.
    - now rewrite Hr. }
  (* [!back] *)
  assert (Ew' : w' = fst (on_back self back_cmd w2)).
  { unfold w'. cbn [handle_all]. fold w1. fold w2.
    rewrite handle_all_app, Hquiet. cbn [handle_all]. unfold effect.
    rewrite handle_message_management by assumption.
    now rewrite handle_management_command_eq, Hbc, Hba, Hback. }
  rewrite on_back_eq in Ew'. cbn [fst] in Ew'.
  assert (Hmarkers :
            map (fun row => (msg_room_id row, msg_event_id row))
              (filter (owner_row (mxid self))
                 (autoreply_messages (database w2)))
            = [(room_id first, event_id first)]).
  { rewrite Ew2, E1. simpl. rewrite filter_app, map_app.
    unfold value in Hmissed. rewrite get_missed_messages_eq in Hmissed.
    cbn [snd] in Hmissed. injection Hmissed as Hmissed. rewrite Hmissed.
    simpl. unfold owner_row. simpl. now rewrite String.eqb_refl. }
  rewrite Hmarkers in Ew'.
  split; [|split].
  - rewrite Ew'. cbn [sent]. rewrite Ew2. cbn [sent replied_and_marked].
    rewrite E1. cbn [sent]. rewrite Ha, Hb. rewrite <- !app_assoc.
    reflexivity.
  - rewrite Ew'. unfold value. rewrite is_away_eq. cbn [snd]. simpl.
    now rewrite fetchval_set_away.
  - rewrite Ew'. unfold value. rewrite get_missed_messages_eq. cbn [snd].
    simpl. now rewrite missed_after_clear.
Qed.

Lemma absence_reports_first_message_witness :
  let away_cmd := MkMessageEvent "@me:hs" "!mgmt:hs" "$a" "!away" in
  let back_cmd := MkMessageEvent "@me:hs" "!mgmt:hs" "$b" "!back" in
  let later := [MkMessageEvent "@alice:hs" "!dm:hs" "$second" "hello?"] in
  let w' := handle_all me (away_cmd :: first_message :: later ++ [back_cmd])
              (MkWorld schema_v1 []) in
  length (sent w') = 3 /\
  value (Store.get_missed_messages "@me:hs") w' = inr [].
Proof.
  intros away_cmd back_cmd later w'.
  assert (Hlisted : listed_direct "!dm:hs"
            [("@alice:hs", ["!dm:hs"]); ("@bob:hs", ["!old:hs"; "!bob:hs"])])
    by (exists "@alice:hs", ["!dm:hs"]; simpl; auto).
  assert (Hmgmt : "!dm:hs" <> management_room me) by (simpl; discriminate).
  assert (Hall : Forall (from_other_in me "!dm:hs") (first_message :: later))
    by (repeat constructor; simpl; discriminate).
  assert (Hfree : forall row,
            In row (autoreply_messages (database (MkWorld schema_v1 []))) ->
            msg_room_id row <> "!dm:hs") by (intros row []).
  destruct (absence_reports_first_message me _ "!dm:hs" away_cmd
              first_message back_cmd later (MkWorld schema_v1 [])
              eq_refl Hlisted Hmgmt eq_refl eq_refl eq_refl eq_refl Hall
              eq_refl Hfree) as [Hsent [_ Hmissed]].
  split; [|exact Hmissed].
  unfold w'. rewrite Hsent. reflexivity.
Defined.

(** * Startup *)

Lemma host_eta (h : Host) : MkHost (host_world h) (create_room_calls h) = h.
Proof. now destruct h. Qed.

Lemma world_eta (w : World) : MkWorld (database w) (sent w) = w.
Proof. now destruct w. Qed.

Lemma start_eq client config h :
  start client config h =
  match Sql.fetchval mr_room_id
          (fun r => String.eqb (mr_user_id r) (client_mxid client))
          (autoreply_management_rooms (database (host_world h))) with
  | Some room => (h, inr (started_with client config room))
  | None =>
      let calls := create_room_calls h ++ [management_room_request config] in
      match create_room_response client (management_room_request config) with
      | inl e => (MkHost (host_world h) calls, inl e)
      | inr room =>
          match Store.store_management_room (client_mxid client) room
                  (host_world h) with
          | (w', inl e) => (MkHost w' calls, inl e)
          | (w', inr _) =>
              (MkHost w' calls, inr (started_with client config room))
          end
      end
  end.
Proof.
  unfold start, hbind, lift. rewrite get_management_room_eq.
  destruct (Sql.fetchval mr_room_id _ _) as [room|].
  - unfold hret. now rewrite host_eta.
  - unfold _create_management_room, hbind, create_room, lift, hret.
    fold (management_room_request config).
    destruct (create_room_response client (management_room_request config))
      as [e|room]; [reflexivity|].
    cbn [host_world create_room_calls].
    destruct (Store.store_management_room (client_mxid client) room
                (host_world h)) as [w' [e|[]]]; reflexivity.
Qed.

(** X15: [start] with a management room already stored for the client.
    It returns the plugin bound to the stored room, asks the homeserver for
    no room, and leaves the database and everything else as it was; the
    room name and icon of the configuration play no part. *)
Theorem start_uses_stored_room (client : Client) (config : Config)
    (room : string) (h : Host) :
  value (Store.get_management_room (client_mxid client)) (host_world h)
    = inr (Some room) ->
  start client config h = (h, inr (started_with client config room)).
Proof.
  unfold value. rewrite get_management_room_eq. cbn [snd]. intros [= H].
  now rewrite start_eq, H.
Qed.

Lemma start_uses_stored_room_witness :
  start example_client example_config (MkHost missed_example [])
  = (MkHost missed_example [],
     inr (started_with example_client example_config "!mgmt:hs")).
Proof.
  apply start_uses_stored_room. reflexivity.
Defined.

(** X16: [start] without a stored management room, the homeserver
    answering the creation with [room].  Exactly one room is asked for,
    with the configured name and avatar and with encryption on; the room is
    stored for the client, so [get_management_room] then returns it; the
    plugin returned is bound to it; the insert cannot fail; markers, away
    flags and sent replies are as before. *)
Theorem start_creates_room_once (client : Client) (config : Config)
    (room : string) (h : Host) :
  value (Store.get_management_room (client_mxid client)) (host_world h)
    = inr None ->
  create_room_response client (management_room_request config) = inr room ->
  let h' := fst (start client config h) in
  snd (start client config h) = inr (started_with client config room) /\
  create_room_calls h'
    = create_room_calls h ++ [management_room_request config] /\
  value (Store.get_management_room (client_mxid client)) (host_world h')
    = inr (Some room) /\
  autoreply_messages (database (host_world h'))
    = autoreply_messages (database (host_world h)) /\
  autoreply_user_away (database (host_world h'))
    = autoreply_user_away (database (host_world h)) /\
  sent (host_world h') = sent (host_world h).
Proof.
  intros Hnone Hresp h'. subst h'.
  pose proof (no_binding_no_key _ _ Hnone) as Hk.
  unfold value in Hnone. rewrite get_management_room_eq in Hnone.
  cbn [snd] in Hnone. injection Hnone as Hnone.
  rewrite start_eq, Hnone. cbv zeta. rewrite Hresp.
  rewrite store_management_room_eq, Hk. cbn [fst snd host_world
    create_room_calls database sent].
  repeat split.
  unfold value. rewrite get_management_room_eq. cbn [snd]. simpl. f_equal.
  apply fetchval_app_new; [exact Hnone|]. simpl. apply String.eqb_refl.
Qed.

Lemma start_creates_room_once_witness :
  let h' := fst (start example_client example_config fresh_host) in
  create_room_calls h' = [management_room_request example_config] /\
  value (Store.get_management_room "@me:hs") (host_world h')
    = inr (Some "!mgmt:hs").
Proof.
  destruct (start_creates_room_once example_client example_config
              "!mgmt:hs" fresh_host eq_refl eq_refl)
    as [_ [Hcalls [Hroom _]]].
  split; [exact Hcalls | exact Hroom].
Defined.

(** X17: [start] without a stored management room, the creation failing.
    The exception of the request leaves [start], the request having been
    made once; nothing is stored, so a later [start] finds no management
    room and asks again. *)
Theorem start_propagates_creation_failure (client : Client) (config : Config)
    (e : Exception) (h : Host) :
  value (Store.get_management_room (client_mxid client)) (host_world h)
    = inr None ->
  create_room_response client (management_room_request config) = inl e ->
  start client config h
  = (MkHost (host_world h)
       (create_room_calls h ++ [management_room_request config]),
     inl e).
Proof.
  unfold value. rewrite get_management_room_eq. cbn [snd]. intros [= H] Hresp.
  now rewrite start_eq, H, Hresp.
Qed.

Lemma start_propagates_creation_failure_witness :
  start (MkClient "@me:hs" (inr []) (fun _ => inl MatrixRequestError))
    example_config fresh_host
  = (MkHost (MkWorld schema_v1 []) [management_room_request example_config],
     inl MatrixRequestError).
Proof.
  apply (start_propagates_creation_failure
           (MkClient "@me:hs" (inr []) (fun _ => inl MatrixRequestError))
           example_config MatrixRequestError fresh_host);
    reflexivity.
Defined.

(** X18: the management room is created once per owner.  After a [start]
    that created the room, any later [start] for the same user, with
    whatever configuration and handled messages in between, asks for no
    room and returns a plugin bound to the room created first. *)
Theorem restart_keeps_management_room (client client' : Client)
    (config config' : Config) (room : string)
    (evts : list MessageEvent) (h : Host) :
  value (Store.get_management_room (client_mxid client)) (host_world h)
    = inr None ->
  create_room_response client (management_room_request config) = inr room ->
  client_mxid client' = client_mxid client ->
  let h1 := fst (start client config h) in
  let h2 := MkHost (handle_all (started_with client config room) evts
                      (host_world h1))
                   (create_room_calls h1) in
  start client' config' h2 = (h2, inr (started_with client' config' room)).
Proof.
  intros Hnone Hresp Hsame h1 h2.
  assert (Hstored : value (Store.get_management_room (client_mxid client))
                      (host_world h1) = inr (Some room)).
  { pose proof (no_binding_no_key _ _ Hnone) as Hk.
    unfold value in Hnone. rewrite get_management_room_eq in Hnone.
    cbn [snd] in Hnone. injection Hnone as Hnone.
    unfold h1. rewrite start_eq, Hnone. cbv zeta. rewrite Hresp.
    rewrite store_management_room_eq, Hk. cbn [fst host_world].
    unfold value. rewrite get_management_room_eq. cbn [snd]. simpl. f_equal.
    apply fetchval_app_new; [exact Hnone|]. simpl. apply String.eqb_refl. }
  assert (Hkeep : forall self l w,
            autoreply_management_rooms (database (handle_all self l w))
            = autoreply_management_rooms (database w)).
  { intros self l. induction l as [|evt l IH]; intros w; simpl;
      [reflexivity|].
    rewrite IH. unfold effect, handle_message.
    destruct (String.eqb (room_id evt) (management_room self)).
    - now destruct (management_command_database self evt w) as [E _].
    - destruct (auto_reply_database self evt w) as [E | [_ E]];
        unfold effect in E; now rewrite E. }
  unfold value in Hstored. rewrite get_management_room_eq in Hstored.
  cbn [snd] in Hstored. injection Hstored as Hstored.
  rewrite start_eq. unfold h2 at 1. cbn [host_world].
  now rewrite Hkeep, Hsame, Hstored.
Qed.

Lemma restart_keeps_management_room_witness :
  let h1 := fst (start example_client example_config fresh_host) in
  let h2 := MkHost (handle_all
                      (started_with example_client example_config "!mgmt:hs")
                      [MkMessageEvent "@me:hs" "!mgmt:hs" "$a" "!away"]
                      (host_world h1))
                   (create_room_calls h1) in
  let later_config := MkConfig "Back soon." "Renamed" "mxc://hs/other" in
  snd (start example_client later_config h2)
  = inr (started_with example_client later_config "!mgmt:hs").
Proof.
  intros h1 h2 later_config.
  pose proof (restart_keeps_management_room example_client example_client
                example_config later_config "!mgmt:hs"
                [MkMessageEvent "@me:hs" "!mgmt:hs" "$a" "!away"]
                fresh_host eq_refl eq_refl eq_refl) as H.
  cbv zeta in H. unfold h2, h1. now rewrite H.
Defined.

(** * The management room, the lookup and the report *)

(** X19: the management room is never auto-replied in.  A message in the
    management room is handled as a command only: what happens does not
    depend on the account data nor on the configured auto-reply text (the
    lookup is not made, the auto-reply is not sent); it adds no marker (the
    table of markers is kept, or loses the owner's rows); and when its body
    starts with none of the commands the world is left as it was, even if
    the owner is away and the sender is someone else. *)
Theorem management_room_never_auto_replies (self self' : AutoReplyBot)
    (evt : MessageEvent) (w : World) :
  room_id evt = management_room self ->
  mxid self' = mxid self ->
  management_room self' = management_room self ->
  let w' := effect (handle_message self evt) w in
  handle_message self' evt w = handle_message self evt w /\
  (autoreply_messages (database w') = autoreply_messages (database w) \/
   autoreply_messages (database w')
     = filter (fun r => negb (owner_row (mxid self) r))
         (autoreply_messages (database w))) /\
  (recognized (body evt) = false -> w' = w).
Proof.
  intros Hroom Hmxid Hmgmt w'. subst w'. split; [|split].
  - rewrite !handle_message_management by congruence.
    destruct self as [m r c d], self' as [m' r' c' d']. simpl in *.
    subst m'. reflexivity.
  - rewrite handle_message_management by assumption.
    now destruct (management_command_database self evt w) as [_ [H _]].
  - rewrite handle_message_management by assumption.
    unfold recognized. intros H. apply orb_false_elim in H.
    destruct H as [H Hb]. apply orb_false_elim in H. destruct H as [Hc Ha].
    unfold effect. now rewrite handle_management_command_eq, Hc, Ha, Hb.
Qed.

Lemma management_room_never_auto_replies_witness :
  effect (handle_message me_lookup_failing
            (MkMessageEvent "@alice:hs" "!mgmt:hs" "$x" "are you there?"))
    away_world
  = away_world.
Proof.
  destruct (management_room_never_auto_replies me_lookup_failing me
              (MkMessageEvent "@alice:hs" "!mgmt:hs" "$x" "are you there?")
              away_world eq_refl eq_refl eq_refl) as [_ [_ H]].
  apply H. reflexivity.
Defined.

(** X20: [_is_direct] on a lookup that succeeds.  It returns normally and
    leaves the world as it was; it answers [True] exactly when the room
    occurs in the sequence of some key, whichever key that is, and so
    [False] for the empty mapping. *)
Theorem is_direct_iff_listed (self : AutoReplyBot)
    (data : list (string * list string)) (room : string) (w : World) :
  m_direct self = inr data ->
  exists answer,
    _is_direct self room w = (w, inr answer) /\
    (answer = true <-> listed_direct room data) /\
    (data = [] -> answer = false).
Proof.
  intros Hdata. exists (scan_items room data). unfold _is_direct.
  rewrite Hdata. split; [reflexivity|]. split.
  - apply scan_items_listed.
  - intros ->. reflexivity.
Qed.

Lemma is_direct_iff_listed_witness :
  _is_direct me "!bob:hs" away_world = (away_world, inr true).
Proof.
  destruct (is_direct_iff_listed me _ "!bob:hs" away_world eq_refl)
    as [answer [E [Hiff _]]].
  rewrite E. f_equal. f_equal. apply Hiff.
  exists "@bob:hs", ["!old:hs"; "!bob:hs"]. simpl. auto.
Defined.

(** X21: the report says that nothing was missed only when there is no
    marker: the text for a non-empty list of markers is never the fixed
    sentence. *)
Theorem summary_nothing_missed_iff_empty (markers : list (string * string)) :
  summary_text markers = nothing_missed <-> markers = [].
Proof.
  split.
  - destruct markers as [|marker rest]; [reflexivity|].
    unfold summary_text. cbn [length Nat.eqb]. rewrite summary_loop.
    unfold summary_header, nothing_missed. simpl. discriminate.
  - intros ->. reflexivity.
Qed.
